(** * stripe-to-sheet: the webhook relay of [server.js], embedded and verified

    The development follows [server.js] top to bottom:
    - [JS]: the string operations the code relies on ([trim],
      [toLowerCase], [includes]) and its truthiness idioms;
    - [Sheets]: the row store behind [sheets.spreadsheets.values] with the
      world the handlers run in (environment, sheet, fault oracle, call log);
    - the functions of [server.js] under their own names;
    - the properties of the specification, one theorem per claim. *)

From Stdlib Require Import String Ascii Bool Arith Lia.
From stdpp Require Import base option list strings.

Open Scope string_scope.
Open Scope list_scope.

(** ** JavaScript strings

    A string is a sequence of code units; the model keeps the code units
    [0..255] (Basic Latin and Latin-1), which is where e-mail addresses,
    status words and subscription ids live.  On that range
    [String.prototype.toLowerCase] maps [A-Z] and the Latin-1 capitals
    [U+00C0..U+00DE] (except the multiplication sign [U+00D7]) to the letter
    32 positions up, and [String.prototype.trim] strips TAB, LF, VT, FF, CR,
    SPACE and NO-BREAK SPACE. *)
Module JS.

Definition isWhiteSpace (c : ascii) : bool :=
  let n := nat_of_ascii c in
  (((9 <=? n) && (n <=? 13)) || (n =? 32) || (n =? 160))%nat.

Definition lowerChar (c : ascii) : ascii :=
  let n := nat_of_ascii c in
  if (((65 <=? n) && (n <=? 90))
      || ((192 <=? n) && (n <=? 222) && negb (n =? 215)))%nat
  then ascii_of_nat (n + 32)
  else c.

Fixpoint toLowerCase (s : string) : string :=
  match s with
  | EmptyString => EmptyString
  | String c s' => String (lowerChar c) (toLowerCase s')
  end.

Fixpoint trimStart (s : string) : string :=
  match s with
  | EmptyString => EmptyString
  | String c s' => if isWhiteSpace c then trimStart s' else s
  end.

Fixpoint trimEnd (s : string) : string :=
  match s with
  | EmptyString => EmptyString
  | String c s' =>
      match trimEnd s' with
      | EmptyString => if isWhiteSpace c then EmptyString else String c EmptyString
      | t => String c t
      end
  end.

Definition trim (s : string) : string := trimStart (trimEnd s).

(** [hay.includes(needle)] *)
Fixpoint includes (needle hay : string) : bool :=
  String.prefix needle hay
  || match hay with
     | EmptyString => false
     | String _ hay' => includes needle hay'
     end.

(** A string is truthy when it is not empty; [undefined] and [null]
    (here [None]) are falsy. *)
Definition truthy (v : option string) : bool :=
  match v with
  | Some s => negb (s =? "")%string
  | None => false
  end.

(** [(v && String(v)) || ''] *)
Definition orEmpty (v : option string) : string :=
  match v with
  | Some s => s
  | None => ""
  end.

(** [(v && String(v).trim()) || ''] *)
Definition trimmedOrEmpty (v : option string) : string :=
  if truthy v then trim (orEmpty v) else "".

(** [(v && String(v).toLowerCase()) || ''] *)
Definition lowerOrEmpty (v : option string) : string :=
  if truthy v then toLowerCase (orEmpty v) else "".

End JS.

(** ** The row store

    Modelled from the spec: the spreadsheet service behind
    [sheets.spreadsheets.values] (the googleapis client) is not part of the
    sources.  The sheet is an ordered table of rows of string cells;
    [get] returns the rows restricted to the columns of the range,
    [append] inserts one row at the end, [update] overwrites a bounded
    region addressed by a 1-based row number.  Any request may fail: the
    world carries an oracle that says, request by request, whether the
    transport throws.  Every request that is issued is logged.  A request
    that throws is modelled as without effect on the sheet; the service
    promises no such thing, and no property below concludes anything about
    the sheet from a write that failed. *)

Abbreviation Row := (list string).

(** The A1 ranges that [server.js] builds. *)
Inductive Range :=
| ColsAB                      (* 'SHEET'!A:B *)
| ColsAC                      (* 'SHEET'!A:C *)
| CellB (rowIndex : nat)      (* 'SHEET'!B<r> *)
| CellsBC (rowIndex : nat).   (* 'SHEET'!B<r>:C<r> *)

Inductive Call :=
| ValuesGet (range : Range)
| ValuesUpdate (range : Range) (values : list Row)
| ValuesAppend (range : Range) (values : list Row).

(** The environment variables read at start-up.  An unset variable and an
    empty one are both falsy, so both are the empty string here;
    [credentialsParse] records whether [JSON.parse(credentialsJson)]
    succeeds. *)
Record Env := {
  spreadsheetId : string;
  credentialsJson : string;
  credentialsParse : bool;
  googleAccountFieldKey : string
}.

Record World := {
  env : Env;
  sheet : list Row;
  faults : list bool;       (* true: the next request throws *)
  calls : list Call         (* requests issued so far, oldest first *)
}.

(** Results of code that may throw. *)
Inductive outcome (A : Type) :=
| Returns (a : A)
| Throws (message : string).
Arguments Returns {A} a.
Arguments Throws {A} message.

Definition M (A : Type) : Type := World -> outcome A * World.

Definition ret {A} (a : A) : M A := fun w => (Returns a, w).

Definition throw {A} (message : string) : M A := fun w => (Throws message, w).

Definition bind {A B} (c : M A) (k : A -> M B) : M B :=
  fun w =>
    match c w with
    | (Returns a, w') => k a w'
    | (Throws e, w') => (Throws e, w')
    end.

Notation "x <- c ;; k" := (bind c (fun x => k))
  (at level 100, c at next level, right associativity).
Notation "c ;;; k" := (bind c (fun _ => k))
  (at level 100, right associativity).

Module Sheets.

(** The leading cells of [row] are overwritten by [cells]; a row that is
    too short grows. *)
Fixpoint overwrite (cells : list string) (row : Row) : Row :=
  match cells with
  | [] => row
  | c :: cells' => c :: overwrite cells' (tail row)
  end.

(** The cells of [row] from column [col] on are overwritten by [cells];
    a row that is too short is first filled up with blank cells. *)
Fixpoint writeCells (col : nat) (cells : list string) (row : Row) : Row :=
  match col with
  | 0 => overwrite cells row
  | S col' => hd "" row :: writeCells col' cells (tail row)
  end.

(** Row [r] (0-based) of the table is rewritten by [f]; the grid has blank
    rows below the last row that holds data. *)
Fixpoint writeRow (r : nat) (f : Row -> Row) (rows : list Row) : list Row :=
  match r, rows with
  | 0, [] => [f []]
  | 0, row :: rest => f row :: rest
  | S r', [] => [] :: writeRow r' f []
  | S r', row :: rest => row :: writeRow r' f rest
  end.

Definition readRange (range : Range) (rows : list Row) : list Row :=
  match range with
  | ColsAB => take 2 <$> rows
  | ColsAC => take 3 <$> rows
  | CellB r => take 1 <$> (drop 1 <$> take 1 (drop (r - 1) rows))
  | CellsBC r => take 2 <$> (drop 1 <$> take 1 (drop (r - 1) rows))
  end.

Definition writeRange (range : Range) (values : list Row) (rows : list Row)
  : option (list Row) :=
  match range with
  | CellB 0 | CellsBC 0 => None          (* not an A1 row number *)
  | CellB (S r) => Some (writeRow r (writeCells 1 (take 1 (hd [] values))) rows)
  | CellsBC (S r) => Some (writeRow r (writeCells 1 (take 2 (hd [] values))) rows)
  | ColsAB => Some (writeRow 0 (writeCells 0 (take 2 (hd [] values))) rows)
  | ColsAC => Some (writeRow 0 (writeCells 0 (take 3 (hd [] values))) rows)
  end.

(** The world once request [c] has been issued: the request is logged and
    the oracle moves on. *)
Definition logged (c : Call) (w : World) : World :=
  {| env := env w; sheet := sheet w;
     faults := tail (faults w); calls := calls w ++ [c] |}.

Definition withSheet (rows : list Row) (w : World) : World :=
  {| env := env w; sheet := rows; faults := faults w; calls := calls w |}.

(** One request: the oracle decides whether it throws. *)
Definition request (c : Call) : M unit :=
  fun w =>
    match faults w with
    | true :: _ => (Throws "request failed", logged c w)
    | _ => (Returns tt, logged c w)
    end.

Definition setSheet (rows : list Row) : M unit :=
  fun w => (Returns tt, withSheet rows w).

(** [sheets.spreadsheets.values.get({ spreadsheetId, range })], followed by
    [existing.data.values || []]. *)
Definition get (range : Range) : M (list Row) :=
  request (ValuesGet range) ;;;
  fun w => (Returns (readRange range (sheet w)), w).

(** [sheets.spreadsheets.values.update({ ..., range, requestBody: { values } })] *)
Definition update (range : Range) (values : list Row) : M unit :=
  request (ValuesUpdate range values) ;;;
  fun w =>
    match writeRange range values (sheet w) with
    | Some rows => setSheet rows w
    | None => (Throws "Unable to parse range", w)
    end.

(** [sheets.spreadsheets.values.append({ ..., range, requestBody: { values } })] *)
Definition append (range : Range) (values : list Row) : M unit :=
  request (ValuesAppend range values) ;;;
  fun w => setSheet (sheet w ++ values) w.

End Sheets.

(** ** [server.js] *)

Definition STATUS_ACTIVE : string := "active".

(** [getSheetsClient]: throws unless the spreadsheet id and the credentials
    are set and the credentials parse. *)
Definition getSheetsClient : M unit :=
  fun w =>
    if (spreadsheetId (env w) =? "") || (credentialsJson (env w) =? "") then
      (Throws "SPREADSHEET_ID or GOOGLE_APPLICATION_CREDENTIALS_JSON is not set", w)
    else if negb (credentialsParse (env w)) then
      (Throws "Invalid GOOGLE_APPLICATION_CREDENTIALS_JSON", w)
    else (Returns tt, w).

(** [getDataRows]: when column A of the first row contains "email" the data
    rows start at the second row. *)
Definition getDataRows (rows : list Row) : list Row :=
  match rows with
  | [] => []
  | row0 :: rest =>
      let first := JS.lowerOrEmpty (row0 !! 0) in
      if JS.includes "email" first then rest else rows
  end.

(** [(row[0] && String(row[0]).trim()) || ''] and its siblings for the
    columns B and C. *)
Definition colA (row : Row) : string := JS.trimmedOrEmpty (row !! 0).
Definition colB (row : Row) : string := JS.trimmedOrEmpty (row !! 1).
Definition colC (row : Row) : string := JS.trimmedOrEmpty (row !! 2).

(** The test of the loops over the e-mail column:
    [colA.toLowerCase() === normalized]. *)
Definition emailMatches (normalized : string) (row : Row) : Prop :=
  JS.toLowerCase (colA row) = normalized.

(** The test of the loop over the subscription column: [colC === subId]. *)
Definition subscriptionMatches (subId : string) (row : Row) : Prop :=
  colC row = subId.

(** The same tests as the code evaluates them. *)
Definition emailTest (normalized : string) (row : Row) : bool :=
  JS.toLowerCase (colA row) =? normalized.

Definition subscriptionTest (subId : string) (row : Row) : bool :=
  colC row =? subId.

(** The loops
    [for (let i = 0; i < rows.length; i++) { const row = rows[i]; if (test) { ...; return; } }]
    and [for (const row of rows) { if (!test) continue; return ...; }]:
    the iteration, counted from [i], at which the body past the test runs,
    with its row; [None] when the loop runs to its end. *)
Fixpoint firstRow (test : Row -> bool) (rows : list Row) (i : nat)
  : option (nat * Row) :=
  match rows with
  | [] => None
  | row :: rest => if test row then Some (i, row) else firstRow test rest (S i)
  end.

#[global] Instance emailMatches_dec normalized row :
  Decision (emailMatches normalized row).
Proof. unfold emailMatches. apply _. Defined.

#[global] Instance subscriptionMatches_dec subId row :
  Decision (subscriptionMatches subId row).
Proof. unfold subscriptionMatches. apply _. Defined.

Record CheckResult := { paid : bool; status : option string }.

(** What [checkPaidUserEmail] returns from inside its loop, at the first
    row whose e-mail matches. *)
Definition rowVerdict (row : Row) : CheckResult :=
  let status := colB row in
  let effectiveStatus := if status =? "" then STATUS_ACTIVE else status in
  {| paid := JS.toLowerCase effectiveStatus =? STATUS_ACTIVE;
     status := if effectiveStatus =? "" then None else Some effectiveStatus |}.

Definition checkPaidUserEmail (email : string) : M CheckResult :=
  let normalized := JS.toLowerCase (JS.trim email) in
  if normalized =? "" then ret {| paid := false; status := None |}
  else
    getSheetsClient ;;;
    existing <- Sheets.get ColsAB ;;
    let rows := getDataRows existing in
    match firstRow (emailTest normalized) rows 0 with
    | Some (_, row) => ret (rowVerdict row)
    | None => ret {| paid := false; status := None |}
    end.

Definition upsertPaidUser (email status subscriptionId : string) : M unit :=
  getSheetsClient ;;;
  allRows <- Sheets.get ColsAC ;;
  let rows := getDataRows allRows in
  let headerOffset := length allRows - length rows in
  let normalized := JS.toLowerCase (JS.trim email) in
  let subId := if subscriptionId =? "" then "" else JS.trim subscriptionId in
  match firstRow (emailTest normalized) rows 0 with
  | Some (i, _) =>
      let rowIndex := headerOffset + i + 1 in
      Sheets.update (CellsBC rowIndex) [[status; subId]]
  | None =>
      Sheets.append ColsAC [[email; status; subId]]
  end.

Definition updateStatusBySubscriptionId (subscriptionId status : string) : M unit :=
  if (subscriptionId =? "") || (status =? "") then ret tt
  else
    getSheetsClient ;;;
    allRows <- Sheets.get ColsAC ;;
    let rows := getDataRows allRows in
    let headerOffset := length allRows - length rows in
    let subId := JS.trim subscriptionId in
    match firstRow (subscriptionTest subId) rows 0 with
    | Some (i, _) =>
        let rowIndex := headerOffset + i + 1 in
        Sheets.update (CellB rowIndex) [[status]]
    | None => ret tt
    end.

(** *** The Stripe payloads, as far as the handler reads them *)

Module Field.
Record holder := { value : option string }.
Record t := {
  key : option string;
  text : option holder;        (* [field.text], an object [{ value }] *)
  dropdown : option holder     (* [field.dropdown], an object [{ value }] *)
}.
End Field.

Module CustomerDetails.
Record t := { email : option string; customer_email : option string }.
End CustomerDetails.

Module Session.
Record t := {
  custom_fields : option (list Field.t);
  customer_email : option string;
  customer_details : option CustomerDetails.t;
  subscription : option string
}.
End Session.

Module Subscription.
Record t := { id : option string; status : option string }.
End Subscription.

Inductive Event :=
| CheckoutSessionCompleted (object : option Session.t)
| CustomerSubscriptionUpdated (object : option Subscription.t)
| CustomerSubscriptionDeleted (object : option Subscription.t)
| CustomerDeleted
| OtherEvent (type : string).

(** [f && f.value && matchKey], then the trimmed value if it is not empty. *)
Definition candidate (f : option Field.holder) (matchKey : bool) : option string :=
  match f with
  | Some o =>
      if JS.truthy (Field.value o) && matchKey then
        let v := JS.trim (JS.orEmpty (Field.value o)) in
        if (0 <? String.length v)%nat then Some v else None
      else None
  | None => None
  end.

(** The first loop of [getGoogleEmailFromSession]. *)
Fixpoint keyedFields (fieldKey : string) (fields : list Field.t) : option string :=
  match fields with
  | [] => None
  | field :: rest =>
      let key := JS.trimmedOrEmpty (Field.key field) in
      let matchKey := (fieldKey =? "") || (key =? fieldKey) in
      match candidate (Field.text field) matchKey with
      | Some v => Some v
      | None =>
          match candidate (Field.dropdown field) matchKey with
          | Some v => Some v
          | None => keyedFields fieldKey rest
          end
      end
  end.

(** The second loop: the first text field that holds a value. *)
Fixpoint firstTextField (fields : list Field.t) : option string :=
  match fields with
  | [] => None
  | field :: rest =>
      match candidate (Field.text field) true with
      | Some v => Some v
      | None => firstTextField rest
      end
  end.

(** [a ?? b] *)
Definition nullish {A} (a b : option A) : option A :=
  match a with
  | Some _ => a
  | None => b
  end.

Definition fallbackEmail (session : Session.t) : option string :=
  nullish (Session.customer_email session)
    (nullish (Session.customer_details session ≫= CustomerDetails.email)
       (Session.customer_details session ≫= CustomerDetails.customer_email)).

(** The block guarded by [Array.isArray(customFields) && customFields.length > 0]:
    what it returns, or [None] when control falls through it. *)
Definition fromCustomFields (fieldKey : string) (customFields : option (list Field.t))
  : option string :=
  match customFields with
  | Some fields =>
      if (0 <? length fields)%nat then
        match keyedFields fieldKey fields with
        | Some v => Some v
        | None => if fieldKey =? "" then firstTextField fields else None
        end
      else None
  | None => None
  end.

Definition getGoogleEmailFromSession (fieldKey : string) (session : Session.t)
  : option string :=
  match fromCustomFields fieldKey (Session.custom_fields session) with
  | Some v => Some v
  | None => fallbackEmail session
  end.

(** *** The routes *)

Inductive Body :=
| JsonCheck (paid : bool) (status : option string)   (* { paid, status? } *)
| JsonReceived                                       (* { received: true } *)
| Text (message : string).

Record Response := { code : nat; body : Body }.

Definition Handler : Type := World -> Response * World.

Definition json (b : Body) : Handler := fun w => ({| code := 200; body := b |}, w).

Definition send (c : nat) (message : string) : Handler :=
  fun w => ({| code := c; body := Text message |}, w).

(** [try { await c; } catch (err) { return onError; }], then [k]. *)
Definition tryCatch {A} (c : M A) (k : A -> Handler) (onError : Handler) : Handler :=
  fun w =>
    match c w with
    | (Returns a, w') => k a w'
    | (Throws _, w') => onError w'
    end.

(** [app.get('/check')], on [req.query.email]. *)
Definition getCheck (query_email : option string) : Handler :=
  let email := JS.trimmedOrEmpty query_email in
  if email =? "" then json (JsonCheck false None)
  else
    tryCatch (checkPaidUserEmail email)
      (fun r => json (JsonCheck (paid r)
                        (if JS.truthy (status r) then status r else None)))
      (json (JsonCheck false None)).

(** [app.post('/webhook')] from the verified event on. *)
Definition onEvent (event : Event) : Handler :=
  fun w =>
  match event with
  | CheckoutSessionCompleted None => json JsonReceived w
  | CheckoutSessionCompleted (Some session) =>
      let email := getGoogleEmailFromSession (googleAccountFieldKey (env w)) session in
      if negb (JS.truthy email) then json JsonReceived w
      else
        let normalized := JS.toLowerCase (JS.trim (JS.orEmpty email)) in
        if (String.length normalized =? 0)%nat then json JsonReceived w
        else
          let subscriptionId := JS.orEmpty (Session.subscription session) in
          tryCatch (upsertPaidUser normalized STATUS_ACTIVE subscriptionId)
            (fun _ => json JsonReceived)
            (send 500 "Append failed") w
  | CustomerSubscriptionUpdated None => json JsonReceived w
  | CustomerSubscriptionUpdated (Some subscription) =>
      if negb (JS.truthy (Subscription.id subscription)) then json JsonReceived w
      else
        let subId := JS.orEmpty (Subscription.id subscription) in
        let status := JS.orEmpty (Subscription.status subscription) in
        tryCatch (updateStatusBySubscriptionId subId status)
          (fun _ => json JsonReceived)
          (send 500 "Update failed") w
  | CustomerSubscriptionDeleted None => json JsonReceived w
  | CustomerSubscriptionDeleted (Some subscription) =>
      if negb (JS.truthy (Subscription.id subscription)) then json JsonReceived w
      else
        let subId := JS.orEmpty (Subscription.id subscription) in
        tryCatch (updateStatusBySubscriptionId subId "canceled")
          (fun _ => json JsonReceived)
          (send 500 "Update failed") w
  | CustomerDeleted => json JsonReceived w
  | OtherEvent _ => json JsonReceived w
  end.

(** ** Worlds in which the store answers *)

Definition configured (e : Env) : bool :=
  negb (spreadsheetId e =? "") && negb (credentialsJson e =? "")
  && credentialsParse e.

(** The store is configured and no request is going to fail. *)
Definition healthy (w : World) : Prop :=
  configured (env w) = true /\ faults w = [].

(** The store is configured and the next request is not going to fail. *)
Definition readable (w : World) : Prop :=
  configured (env w) = true /\ head (faults w) <> Some true.

(** The writes among the requests issued. *)
Definition isWrite (c : Call) : bool :=
  match c with
  | ValuesGet _ => false
  | ValuesUpdate _ _ | ValuesAppend _ _ => true
  end.

Definition writes (w : World) : list Call := filter (fun c => isWrite c = true) (calls w).

(** [allRows.length - rows.length] *)
Definition headerOffset (allRows : list Row) : nat :=
  length allRows - length (getDataRows allRows).

(** The answer of [checkPaidUserEmail] on the data rows [rows]. *)
Definition verdict (normalized : string) (rows : list Row) : CheckResult :=
  match firstRow (emailTest normalized) rows 0 with
  | Some (_, row) => rowVerdict row
  | None => {| paid := false; status := None |}
  end.

(** [subscriptionId ? String(subscriptionId).trim() : ''] *)
Definition trimmedId (subscriptionId : string) : string :=
  if subscriptionId =? "" then "" else JS.trim subscriptionId.

(** The world after the read of columns A to C, request [c] and the
    overwrite of the sheet by [rows]. *)
Definition wrote (c : Call) (rows : list Row) (w : World) : World :=
  Sheets.withSheet rows (Sheets.logged c (Sheets.logged (ValuesGet ColsAC) w)).

(** ** The webhook route from the request on *)

Module Webhook.
(** The raw body ([express.raw]) and the [stripe-signature] header. *)
Record Request := { body : option string; signature : option string }.
End Webhook.

(** [app.post('/webhook')].  [Stripe.webhooks.constructEvent(body, sig,
    secret)] belongs to the Stripe library: it is a parameter here, a
    function that returns the verified event or throws.  The secret is
    [process.env.STRIPE_WEBHOOK_SECRET], empty when unset. *)
Definition postWebhook
    (constructEvent : string -> string -> string -> outcome Event)
    (stripeWebhookSecret : string) (req : Webhook.Request) : Handler :=
  fun w =>
    if negb (JS.truthy (Webhook.body req)) then send 400 "Empty body" w
    else if negb (JS.truthy (Webhook.signature req))
            || (stripeWebhookSecret =? "") then send 400 "Bad request" w
    else
      match constructEvent (JS.orEmpty (Webhook.body req))
              (JS.orEmpty (Webhook.signature req)) stripeWebhookSecret with
      | Throws message => send 400 (String.append "Webhook Error: " message) w
      | Returns event => onEvent event w
      end.

(** ** What a run of the write paths amounts to *)

(** The write that [upsertPaidUser] issues on the rows [rows], and the
    sheet that the write leaves. *)
Definition upsertPlan (email st subscriptionId : string) (rows : list Row)
  : Call * list Row :=
  let subId := trimmedId subscriptionId in
  match firstRow (emailTest (JS.toLowerCase (JS.trim email))) (getDataRows rows) 0 with
  | Some (i, row) =>
      (ValuesUpdate (CellsBC (headerOffset rows + i + 1)) [[st; subId]],
       <[headerOffset rows + i := Sheets.writeCells 1 [st; subId] row]> rows)
  | None =>
      (ValuesAppend ColsAC [[email; st; subId]], rows ++ [[email; st; subId]])
  end.

(** The write that [updateStatusBySubscriptionId] issues on the rows
    [rows], if any, and the sheet that the write leaves. *)
Definition statusPlan (subscriptionId st : string) (rows : list Row)
  : option (Call * list Row) :=
  match firstRow (subscriptionTest (JS.trim subscriptionId)) (getDataRows rows) 0 with
  | Some (i, row) =>
      Some (ValuesUpdate (CellB (headerOffset rows + i + 1)) [[st]],
            <[headerOffset rows + i := Sheets.writeCells 1 [st] row]> rows)
  | None => None
  end.

(** ** Sample worlds *)

Definition sampleEnv : Env :=
  {| spreadsheetId := "1AbCdEf";
     credentialsJson := "{}";
     credentialsParse := true;
     googleAccountFieldKey := "" |}.

(** A configured store holding [rows], with no failure ahead. *)
Definition store (rows : list Row) : World :=
  {| env := sampleEnv; sheet := rows; faults := []; calls := [] |}.

(** The same store when its next request is going to throw. *)
Definition outage (rows : list Row) : World :=
  {| env := sampleEnv; sheet := rows; faults := [true]; calls := [] |}.

Definition headedSheet : list Row :=
  [ ["Email"; "Status"; "Subscription"];
    ["a@b.com"; "canceled"; "sub_0"];
    ["c@d.org"; "active"; "sub_7"] ].

(** The write requests that [upsertPaidUser] builds on the rows [rows]:
    the append of the row [[email, status, subId]], or the update of
    columns B to C of a sheet row below the header and inside the table. *)
Definition upsertRequest (email st subscriptionId : string) (rows : list Row)
    (c : Call) : Prop :=
  c = ValuesAppend ColsAC [[email; st; trimmedId subscriptionId]]
  \/ exists r,
       c = ValuesUpdate (CellsBC r) [[st; trimmedId subscriptionId]]
       /\ headerOffset rows < r /\ r <= length rows.

(** A store whose credentials were never set. *)
Definition unconfiguredStore (rows : list Row) : World :=
  {| env := {| spreadsheetId := "1AbCdEf"; credentialsJson := "";
               credentialsParse := false; googleAccountFieldKey := "" |};
     sheet := rows; faults := []; calls := [] |}.

(** A verifier for the examples: it accepts the signature "good" and
    reads every body as a [customer.deleted] event. *)
Definition sampleVerifier (body sig secret : string) : outcome Event :=
  if sig =? "good" then Returns CustomerDeleted
  else Throws "No signatures found matching the expected signature for payload".

(** A request whose signature [sampleVerifier] rejects. *)
Definition forgedRequest : Webhook.Request :=
  {| Webhook.body := Some "{}"; Webhook.signature := Some "forged" |}.

(** A session whose [customer_email] is the empty string and whose
    customer details hold an address. *)
Definition emptyEmailSession : Session.t :=
  {| Session.custom_fields := Some [];
     Session.customer_email := Some "";
     Session.customer_details :=
       Some {| CustomerDetails.email := Some "a@b.com";
               CustomerDetails.customer_email := None |};
     Session.subscription := Some "sub_1" |}.

(** A field whose key is padded with white space. *)
Definition paddedKeyField : Field.t :=
  {| Field.key := Some " google_account ";
     Field.text := Some {| Field.value := Some "  Me@Site.jp " |};
     Field.dropdown := None |}.

(** A checkout session whose first custom field is a dropdown and whose
    second is the text field that holds the Google account. *)
Definition planField : Field.t :=
  {| Field.key := Some "plan";
     Field.text := None;
     Field.dropdown := Some {| Field.value := Some "pro" |} |}.

Definition accountField : Field.t :=
  {| Field.key := Some "google_account";
     Field.text := Some {| Field.value := Some "a@b.com" |};
     Field.dropdown := None |}.

Definition dropdownFirstSession : Session.t :=
  {| Session.custom_fields := Some [planField; accountField];
     Session.customer_email := Some "payer@example.com";
     Session.customer_details := None;
     Session.subscription := Some "sub_1" |}.

(** * Lemmas *)

Example trim_example : JS.trim "  Foo@Bar.COM  " = "Foo@Bar.COM".
Proof. reflexivity. Qed.

Example lower_example : JS.toLowerCase "Foo@Bar.COM" = "foo@bar.com".
Proof. reflexivity. Qed.

Example includes_example :
  JS.includes "email" "myemail@gmail.com" = true
  /\ JS.includes "email" "a@b.com" = false.
Proof. split; reflexivity. Qed.


Section Strings.

Lemma eqb_empty_false (s : string) : s <> "" -> (s =? "") = false.
Proof. intros Hs. by apply String.eqb_neq. Qed.

Lemma trimmedOrEmpty_Some (s : string) : JS.trimmedOrEmpty (Some s) = JS.trim s.
Proof.
  unfold JS.trimmedOrEmpty; simpl.
  destruct (String.eqb_spec s "") as [-> | _]; reflexivity.
Qed.

Lemma trimmedId_trim (s : string) : trimmedId s = JS.trim s.
Proof.
  unfold trimmedId. destruct (String.eqb_spec s "") as [-> | _]; reflexivity.
Qed.

Lemma toLowerCase_empty (s : string) : JS.toLowerCase s = "" -> s = "".
Proof. destruct s; [reflexivity | discriminate]. Qed.

Lemma includes_empty (needle : string) :
  needle <> "" -> JS.includes needle "" = false.
Proof. destruct needle; [congruence | reflexivity]. Qed.

End Strings.

Section Rows.

Lemma lookup_take_S {A} (n k : nat) (row : list A) :
  k <= n -> take (S n) row !! k = row !! k.
Proof. intros Hk. apply lookup_take_lt. lia. Qed.

Lemma colA_take (n : nat) (row : Row) : colA (take (S n) row) = colA row.
Proof. unfold colA. by rewrite lookup_take_S by lia. Qed.

Lemma colB_take (n : nat) (row : Row) : colB (take (S (S n)) row) = colB row.
Proof. unfold colB. by rewrite lookup_take_S by lia. Qed.

Lemma colC_take (n : nat) (row : Row) : colC (take (S (S (S n))) row) = colC row.
Proof. unfold colC. by rewrite lookup_take_S by lia. Qed.

Lemma getDataRows_take (n : nat) (rows : list Row) :
  getDataRows (take (S n) <$> rows) = take (S n) <$> getDataRows rows.
Proof.
  destruct rows as [| row0 rest]; [reflexivity |].
  cbn [fmap list_fmap getDataRows]. rewrite lookup_take_S by lia.
  destruct (JS.includes _ _); reflexivity.
Qed.

Lemma getDataRows_drop (rows : list Row) :
  getDataRows rows = drop (headerOffset rows) rows.
Proof.
  unfold headerOffset. destruct rows as [| row0 rest]; [reflexivity |].
  cbn [getDataRows]. destruct (JS.includes _ _); cbn [length].
  - replace (S (length rest) - length rest) with 1 by lia. reflexivity.
  - by rewrite Nat.sub_diag.
Qed.

Lemma headerOffset_take (n : nat) (rows : list Row) :
  headerOffset (take (S n) <$> rows) = headerOffset rows.
Proof.
  unfold headerOffset. by rewrite getDataRows_take, !length_fmap.
Qed.

Lemma getDataRows_lookup (rows : list Row) (i : nat) :
  getDataRows rows !! i = rows !! (headerOffset rows + i).
Proof. rewrite getDataRows_drop at 1. apply lookup_drop. Qed.

(** The loops stop at the first row that satisfies the test. *)
Lemma firstRow_list_find (test : Row -> bool) (P : Row -> Prop)
    `{!forall row, Decision (P row)} (rows : list Row) (i : nat) :
  (forall row, test row = true <-> P row) ->
  firstRow test rows i = prod_map (fun k => i + k) id <$> list_find P rows.
Proof.
  intros Htest. revert i.
  induction rows as [| row rest IH]; intros i; [reflexivity |].
  cbn [firstRow list_find]. destruct (decide (P row)) as [Hrow | Hrow].
  - apply Htest in Hrow as ->. cbn. by rewrite Nat.add_0_r.
  - destruct (test row) eqn:Hb; [by apply Htest in Hb |].
    rewrite IH. destruct (list_find P rest) as [[k r] |]; cbn; [| reflexivity].
    do 2 f_equal. lia.
Qed.

Lemma firstRow_email (normalized : string) (rows : list Row) :
  firstRow (emailTest normalized) rows 0 = list_find (emailMatches normalized) rows.
Proof.
  rewrite (firstRow_list_find _ (emailMatches normalized)).
  - by destruct (list_find _ rows) as [[k r] |].
  - intros row. apply String.eqb_eq.
Qed.

Lemma firstRow_subscription (subId : string) (rows : list Row) :
  firstRow (subscriptionTest subId) rows 0
  = list_find (subscriptionMatches subId) rows.
Proof.
  rewrite (firstRow_list_find _ (subscriptionMatches subId)).
  - by destruct (list_find _ rows) as [[k r] |].
  - intros row. apply String.eqb_eq.
Qed.

Lemma verdict_find (normalized : string) (rows : list Row) :
  verdict normalized rows
  = match list_find (emailMatches normalized) rows with
    | Some (_, row) => rowVerdict row
    | None => {| paid := false; status := None |}
    end.
Proof. unfold verdict. by rewrite firstRow_email. Qed.

Lemma find_email_take (n : nat) (normalized : string) (rows : list Row) :
  list_find (emailMatches normalized) (take (S n) <$> rows)
  = prod_map id (take (S n)) <$> list_find (emailMatches normalized) rows.
Proof.
  rewrite list_find_fmap. f_equal. apply list_find_ext.
  intros row. unfold emailMatches; simpl. by rewrite colA_take.
Qed.

Lemma find_subscription_take (n : nat) (subId : string) (rows : list Row) :
  list_find (subscriptionMatches subId) (take (S (S (S n))) <$> rows)
  = prod_map id (take (S (S (S n)))) <$> list_find (subscriptionMatches subId) rows.
Proof.
  rewrite list_find_fmap. f_equal. apply list_find_ext.
  intros row. unfold subscriptionMatches; simpl. by rewrite colC_take.
Qed.

Lemma rowVerdict_take (n : nat) (row : Row) :
  rowVerdict (take (S (S n)) row) = rowVerdict row.
Proof. unfold rowVerdict. by rewrite colB_take. Qed.

End Rows.

Section Store.

Lemma writeRow_insert (f : Row -> Row) (rows : list Row) (r : nat) (row : Row) :
  rows !! r = Some row -> Sheets.writeRow r f rows = <[r := f row]> rows.
Proof.
  revert r. induction rows as [| row' rest IH]; intros [| r] Hr;
    simplify_eq/=; [reflexivity |].
  by rewrite (IH r Hr).
Qed.

Lemma writeCells_first (col : nat) (cells : list string) (row : Row) :
  JS.truthy (Sheets.writeCells (S col) cells row !! 0) = JS.truthy (row !! 0)
  /\ JS.orEmpty (Sheets.writeCells (S col) cells row !! 0) = JS.orEmpty (row !! 0).
Proof. destruct row; split; reflexivity. Qed.

Lemma colA_writeCells (col : nat) (cells : list string) (row : Row) :
  colA (Sheets.writeCells (S col) cells row) = colA row.
Proof.
  unfold colA, JS.trimmedOrEmpty.
  destruct (writeCells_first col cells row) as [-> ->]. reflexivity.
Qed.

Lemma lowerOrEmpty_writeCells (col : nat) (cells : list string) (row : Row) :
  JS.lowerOrEmpty (Sheets.writeCells (S col) cells row !! 0)
  = JS.lowerOrEmpty (row !! 0).
Proof.
  unfold JS.lowerOrEmpty.
  destruct (writeCells_first col cells row) as [-> ->]. reflexivity.
Qed.

Lemma colC_writeB (b : string) (row : Row) :
  colC (Sheets.writeCells 1 [b] row) = colC row.
Proof. destruct row as [| a [| b' [| c rest]]]; reflexivity. Qed.

Lemma colB_writeCells (b : string) (cells : list string) (row : Row) :
  colB (Sheets.writeCells 1 (b :: cells) row) = JS.trim b.
Proof. unfold colB. cbn. apply trimmedOrEmpty_Some. Qed.

Lemma writeCells_again (cells : list string) (row : Row) :
  Sheets.writeCells 1 cells (Sheets.writeCells 1 cells row)
  = Sheets.writeCells 1 cells row.
Proof.
  cbn. f_equal. generalize (tail row). clear row.
  induction cells as [| c cells IH]; intros row; cbn; [reflexivity |].
  by rewrite IH.
Qed.

(** A write that keeps column A leaves the header decision alone. *)
Lemma getDataRows_insert (rows : list Row) (r : nat) (row row' : Row) :
  rows !! r = Some row ->
  JS.lowerOrEmpty (row' !! 0) = JS.lowerOrEmpty (row !! 0) ->
  getDataRows (<[r := row']> rows)
  = drop (headerOffset rows) (<[r := row']> rows)
  /\ headerOffset (<[r := row']> rows) = headerOffset rows.
Proof.
  intros Hr Hfirst.
  assert (headerOffset (<[r := row']> rows) = headerOffset rows) as Hoff.
  { unfold headerOffset. rewrite length_insert.
    destruct rows as [| row0 rest]; [reflexivity |].
    destruct r as [| r]; simplify_eq/=.
    - rewrite Hfirst. destruct (JS.includes _ _); cbn [length]; lia.
    - destruct (JS.includes _ _); cbn [length]; rewrite ?length_insert; lia. }
  split; [| exact Hoff]. by rewrite getDataRows_drop, Hoff.
Qed.

Lemma healthy_readable (w : World) : healthy w -> readable w.
Proof. intros [Hc Hf]. split; [exact Hc |]. by rewrite Hf. Qed.

Lemma getSheetsClient_configured (w : World) :
  configured (env w) = true -> getSheetsClient w = (Returns tt, w).
Proof.
  intros Hc. unfold getSheetsClient, configured in *.
  apply andb_prop in Hc as [Hc Hp]. apply andb_prop in Hc as [Hs Hj].
  apply negb_true_iff in Hs, Hj. by rewrite Hs, Hj, Hp.
Qed.

Lemma getSheetsClient_healthy (w : World) :
  healthy w -> getSheetsClient w = (Returns tt, w).
Proof. intros [Hc _]. by apply getSheetsClient_configured. Qed.

Lemma logged_healthy (c : Call) (w : World) : healthy w -> healthy (Sheets.logged c w).
Proof. intros [Hc Hf]. split; [exact Hc |]. cbn. by rewrite Hf. Qed.

Lemma withSheet_healthy (rows : list Row) (w : World) :
  healthy w -> healthy (Sheets.withSheet rows w).
Proof. intros [Hc Hf]. split; assumption. Qed.

Lemma request_readable (c : Call) (w : World) :
  readable w -> Sheets.request c w = (Returns tt, Sheets.logged c w).
Proof.
  intros [_ Hf]. unfold Sheets.request.
  destruct (faults w) as [| [|] fs]; [reflexivity | by destruct Hf | reflexivity].
Qed.

Lemma request_healthy (c : Call) (w : World) :
  healthy w -> Sheets.request c w = (Returns tt, Sheets.logged c w).
Proof. intros Hw. by apply request_readable, healthy_readable. Qed.

Lemma get_readable (range : Range) (w : World) :
  readable w ->
  Sheets.get range w
  = (Returns (Sheets.readRange range (sheet w)), Sheets.logged (ValuesGet range) w).
Proof.
  intros Hw. unfold Sheets.get, bind. by rewrite request_readable.
Qed.

Lemma get_healthy (range : Range) (w : World) :
  healthy w ->
  Sheets.get range w
  = (Returns (Sheets.readRange range (sheet w)), Sheets.logged (ValuesGet range) w).
Proof. intros Hw. by apply get_readable, healthy_readable. Qed.

End Store.

(** ** What the three store functions do in a healthy world *)

Section Characterisation.

Lemma checkPaidUserEmail_readable (email : string) (w : World) :
  readable w ->
  JS.toLowerCase (JS.trim email) <> "" ->
  checkPaidUserEmail email w
  = (Returns (verdict (JS.toLowerCase (JS.trim email)) (getDataRows (sheet w))),
     Sheets.logged (ValuesGet ColsAB) w).
Proof.
  intros Hw Hn. unfold checkPaidUserEmail.
  rewrite (eqb_empty_false _ Hn). unfold bind at 1.
  rewrite (getSheetsClient_configured w (proj1 Hw)). unfold bind.
  rewrite (get_readable ColsAB w Hw). cbn [Sheets.readRange].
  rewrite firstRow_email, getDataRows_take, find_email_take, verdict_find.
  destruct (list_find _ (getDataRows (sheet w))) as [[i row] |]; cbn;
    [| reflexivity].
  unfold ret. by rewrite rowVerdict_take.
Qed.

Lemma update_row_healthy (range : Range) (r : nat) (cells : list string)
    (row : Row) (w : World) :
  healthy w ->
  sheet w !! r = Some row ->
  Sheets.writeRange range [cells] (sheet w)
  = Some (Sheets.writeRow r (Sheets.writeCells 1 cells) (sheet w)) ->
  Sheets.update range [cells] w
  = (Returns tt,
     Sheets.withSheet (<[r := Sheets.writeCells 1 cells row]> (sheet w))
       (Sheets.logged (ValuesUpdate range [cells]) w)).
Proof.
  intros Hw Hr Hrange. unfold Sheets.update, bind.
  rewrite (request_healthy _ w Hw). cbn [Sheets.logged sheet].
  rewrite Hrange. unfold Sheets.setSheet. by rewrite (writeRow_insert _ _ _ _ Hr).
Qed.

Lemma upsertPaidUser_healthy (email st subscriptionId : string) (w : World) :
  healthy w ->
  let subId := trimmedId subscriptionId in
  let off := headerOffset (sheet w) in
  upsertPaidUser email st subscriptionId w
  = (Returns tt,
     match list_find (emailMatches (JS.toLowerCase (JS.trim email)))
             (getDataRows (sheet w)) with
     | Some (i, row) =>
         wrote (ValuesUpdate (CellsBC (off + i + 1)) [[st; subId]])
           (<[off + i := Sheets.writeCells 1 [st; subId] row]> (sheet w)) w
     | None =>
         wrote (ValuesAppend ColsAC [[email; st; subId]])
           (sheet w ++ [[email; st; subId]]) w
     end).
Proof.
  intros Hw subId off. unfold upsertPaidUser. unfold bind at 1.
  rewrite (getSheetsClient_healthy w Hw). unfold bind at 1.
  rewrite (get_healthy ColsAC w Hw). cbn [Sheets.readRange].
  rewrite firstRow_email, getDataRows_take, find_email_take, !length_fmap.
  fold (headerOffset (sheet w)). fold off. fold (trimmedId subscriptionId). fold subId.
  pose proof (logged_healthy (ValuesGet ColsAC) w Hw) as Hw'.
  destruct (list_find _ (getDataRows (sheet w))) as [[i row] |] eqn:Hfind; cbn.
  - apply list_find_Some in Hfind as (Hi & _ & _).
    rewrite getDataRows_lookup in Hi.
    rewrite (update_row_healthy _ (off + i) _ row _ Hw'); [reflexivity | exact Hi |].
    rewrite Nat.add_1_r. reflexivity.
  - unfold Sheets.append, bind. rewrite (request_healthy _ _ Hw'). reflexivity.
Qed.

Lemma updateStatusBySubscriptionId_healthy (subscriptionId st : string) (w : World) :
  healthy w ->
  subscriptionId <> "" -> st <> "" ->
  let off := headerOffset (sheet w) in
  updateStatusBySubscriptionId subscriptionId st w
  = (Returns tt,
     match list_find (subscriptionMatches (JS.trim subscriptionId))
             (getDataRows (sheet w)) with
     | Some (i, row) =>
         wrote (ValuesUpdate (CellB (off + i + 1)) [[st]])
           (<[off + i := Sheets.writeCells 1 [st] row]> (sheet w)) w
     | None => Sheets.logged (ValuesGet ColsAC) w
     end).
Proof.
  intros Hw Hs Hst off. unfold updateStatusBySubscriptionId.
  rewrite (eqb_empty_false _ Hs), (eqb_empty_false _ Hst). cbn [orb].
  unfold bind at 1. rewrite (getSheetsClient_healthy w Hw). unfold bind at 1.
  rewrite (get_healthy ColsAC w Hw). cbn [Sheets.readRange].
  rewrite firstRow_subscription, getDataRows_take, find_subscription_take, !length_fmap.
  fold (headerOffset (sheet w)). fold off.
  pose proof (logged_healthy (ValuesGet ColsAC) w Hw) as Hw'.
  destruct (list_find _ (getDataRows (sheet w))) as [[i row] |] eqn:Hfind; cbn;
    [| reflexivity].
  apply list_find_Some in Hfind as (Hi & _ & _).
  rewrite getDataRows_lookup in Hi.
  rewrite (update_row_healthy _ (off + i) _ row _ Hw'); [reflexivity | exact Hi |].
  rewrite Nat.add_1_r. reflexivity.
Qed.

End Characterisation.

(** ** The row that [upsertPaidUser] leaves behind *)

Section Upsert.

Lemma lowerOrEmpty_Some (s : string) : JS.lowerOrEmpty (Some s) = JS.toLowerCase s.
Proof.
  unfold JS.lowerOrEmpty; simpl.
  destruct (String.eqb_spec s "") as [-> | _]; reflexivity.
Qed.

Lemma getDataRows_app (rows more : list Row) :
  rows <> [] -> getDataRows (rows ++ more) = getDataRows rows ++ more.
Proof.
  destruct rows as [| row0 rest]; [done |]. intros _. cbn.
  destruct (JS.includes _ _); reflexivity.
Qed.

Lemma getDataRows_append_row (rows : list Row) (email : string) (cells : list string) :
  rows <> [] \/ JS.includes "email" (JS.toLowerCase email) = false ->
  getDataRows (rows ++ [email :: cells]) = getDataRows rows ++ [email :: cells].
Proof.
  intros Hsafe. destruct rows as [| row0 rest].
  - destruct Hsafe as [? | Hsafe]; [done |].
    cbn. by rewrite lowerOrEmpty_Some, Hsafe.
  - by apply getDataRows_app.
Qed.

Lemma wrote_healthy (c : Call) (rows : list Row) (w : World) :
  healthy w -> healthy (wrote c rows w).
Proof. intros Hw. by apply withSheet_healthy, logged_healthy, logged_healthy. Qed.

(** A write to a matching data row that keeps its column A keeps it the
    first match. *)
Lemma find_email_insert (normalized : string) (rows : list Row) (i : nat)
    (row row' : Row) :
  list_find (emailMatches normalized) rows = Some (i, row) ->
  colA row' = colA row ->
  list_find (emailMatches normalized) (<[i := row']> rows) = Some (i, row').
Proof.
  intros (Hi & Hrow & Hfirst)%list_find_Some HcolA.
  apply list_find_Some. split_and!.
  - apply list_lookup_insert_eq. by eapply lookup_lt_Some.
  - unfold emailMatches in *. by rewrite HcolA.
  - intros j y Hj Hlt. rewrite list_lookup_insert_ne in Hj by lia. eauto.
Qed.

Lemma getDataRows_write (rows : list Row) (i : nat) (row : Row) (cells : list string) :
  getDataRows rows !! i = Some row ->
  let rows' := <[headerOffset rows + i := Sheets.writeCells 1 cells row]> rows in
  getDataRows rows' = <[i := Sheets.writeCells 1 cells row]> (getDataRows rows)
  /\ headerOffset rows' = headerOffset rows.
Proof.
  intros Hi rows'. rewrite getDataRows_lookup in Hi.
  destruct (getDataRows_insert rows _ row (Sheets.writeCells 1 cells row) Hi)
    as [Hdata Hoff]; [apply lowerOrEmpty_writeCells |].
  split; [| exact Hoff]. subst rows'. rewrite Hdata.
  rewrite drop_insert_ge by lia. rewrite <- getDataRows_drop.
  f_equal. lia.
Qed.

Lemma upsertPaidUser_row (email st subscriptionId : string) (w : World) :
  healthy w ->
  sheet w <> [] \/ JS.includes "email" (JS.toLowerCase email) = false ->
  let w1 := snd (upsertPaidUser email st subscriptionId w) in
  healthy w1
  /\ exists (k : nat) (row1 : Row),
       list_find (emailMatches (JS.toLowerCase (JS.trim email)))
         (getDataRows (sheet w1)) = Some (k, row1)
       /\ Sheets.writeCells 1 [st; trimmedId subscriptionId] row1 = row1.
Proof.
  intros Hw Hsafe w1. subst w1. rewrite (upsertPaidUser_healthy _ _ _ w Hw).
  cbn [snd].
  destruct (list_find _ (getDataRows (sheet w))) as [[i row] |] eqn:Hfind.
  - split; [by apply wrote_healthy |].
    exists i, (Sheets.writeCells 1 [st; trimmedId subscriptionId] row).
    cbn [wrote Sheets.withSheet sheet].
    pose proof Hfind as (Hi & _ & _)%list_find_Some.
    destruct (getDataRows_write (sheet w) i row [st; trimmedId subscriptionId] Hi)
      as [-> _].
    split; [| apply writeCells_again].
    eapply find_email_insert; [exact Hfind | apply colA_writeCells].
  - split; [by apply wrote_healthy |].
    exists (length (getDataRows (sheet w))), [email; st; trimmedId subscriptionId].
    cbn [wrote Sheets.withSheet sheet].
    rewrite getDataRows_append_row by exact Hsafe.
    split; [| reflexivity].
    apply list_find_Some. split_and!.
    + by rewrite list_lookup_middle.
    + unfold emailMatches, colA. cbn [lookup list_lookup].
      by rewrite trimmedOrEmpty_Some.
    + intros j y Hj Hlt. rewrite lookup_app_l in Hj by exact Hlt.
      apply list_find_None in Hfind.
      by eapply (Forall_lookup_1 _ _ _ _ Hfind).
Qed.

End Upsert.

(** ** The scenario of the specification, run on the model *)

Example end_to_end :
  let checkout := CheckoutSessionCompleted (Some
        {| Session.custom_fields := Some [accountField];
           Session.customer_email := None;
           Session.customer_details := None;
           Session.subscription := Some "sub_1" |}) in
  let pastDue := CustomerSubscriptionUpdated (Some
        {| Subscription.id := Some "sub_1"; Subscription.status := Some "past_due" |}) in
  let deleted := CustomerSubscriptionDeleted (Some
        {| Subscription.id := Some "sub_1"; Subscription.status := Some "active" |}) in
  let w1 := snd (onEvent checkout (store [])) in
  let w2 := snd (onEvent pastDue w1) in
  let w3 := snd (onEvent deleted w2) in
  sheet w1 = [ ["a@b.com"; "active"; "sub_1"] ]
  /\ sheet w2 = [ ["a@b.com"; "past_due"; "sub_1"] ]
  /\ body (fst (getCheck (Some "a@b.com") w2)) = JsonCheck false (Some "past_due")
  /\ sheet w3 = [ ["a@b.com"; "canceled"; "sub_1"] ]
  /\ body (fst (getCheck (Some "  A@B.COM ") w3)) = JsonCheck false (Some "canceled").
Proof. vm_compute. by split_and!. Qed.

(** * The claims *)

(** ** Activation followed by a query *)

(** C1 as stated fails: on an empty sheet the row appended for an address
    that contains "email" becomes the first row, [getDataRows] takes it for
    the header, and the query that follows reports [{ paid: false }]. *)
Lemma activate_then_query_counterexample :
  healthy (store [])
  /\ JS.toLowerCase (JS.trim "myemail@gmail.com") <> ""
  /\ fst (checkPaidUserEmail "myemail@gmail.com"
            (snd (upsertPaidUser "myemail@gmail.com" STATUS_ACTIVE "sub_1" (store []))))
     = Returns {| paid := false; status := None |}
  /\ fst (checkPaidUserEmail "myemail@gmail.com"
            (snd (upsertPaidUser "myemail@gmail.com" STATUS_ACTIVE "sub_1" (store []))))
     <> Returns {| paid := true; status := Some "active" |}.
Proof.
  split_and!; [split; reflexivity | vm_compute; discriminate
              | vm_compute; reflexivity | vm_compute; discriminate].
Qed.

(** C1 (amended): for every e-mail E that is not blank and every
    subscription id [sub], in a store that answers and whose sheet is not empty
    or with E not containing "email" (in any case), [upsertPaidUser] with
    status "active" followed by [checkPaidUserEmail] on E returns
    [{ paid: true, status: "active" }]. *)
Theorem activate_then_query (w : World) (E sub : string) :
  healthy w ->
  JS.toLowerCase (JS.trim E) <> "" ->
  sheet w <> [] \/ JS.includes "email" (JS.toLowerCase E) = false ->
  fst (checkPaidUserEmail E (snd (upsertPaidUser E STATUS_ACTIVE sub w)))
  = Returns {| paid := true; status := Some "active" |}.
Proof.
  intros Hw Hn Hsafe.
  destruct (upsertPaidUser_row E STATUS_ACTIVE sub w Hw Hsafe)
    as (Hw1 & k & row1 & Hfind & Hrow1).
  rewrite checkPaidUserEmail_readable by auto using healthy_readable.
  cbn [fst]. rewrite verdict_find. rewrite Hfind. f_equal.
  unfold rowVerdict. rewrite <- Hrow1, colB_writeCells. reflexivity.
Qed.

Lemma activate_then_query_witness :
  healthy (store headedSheet)
  /\ JS.toLowerCase (JS.trim "  A@B.com ") <> ""
  /\ (sheet (store headedSheet) <> []
      \/ JS.includes "email" (JS.toLowerCase "  A@B.com ") = false)
  /\ fst (checkPaidUserEmail "  A@B.com "
            (snd (upsertPaidUser "  A@B.com " STATUS_ACTIVE "sub_1" (store headedSheet))))
     = Returns {| paid := true; status := Some "active" |}.
Proof.
  assert (healthy (store headedSheet)) as Hw by (split; reflexivity).
  assert (JS.toLowerCase (JS.trim "  A@B.com ") <> "") as Hn
    by (vm_compute; discriminate).
  assert (sheet (store headedSheet) <> []
          \/ JS.includes "email" (JS.toLowerCase "  A@B.com ") = false) as Hsafe
    by (left; vm_compute; discriminate).
  split_and!; [exact Hw | exact Hn | exact Hsafe |].
  exact (activate_then_query (store headedSheet) "  A@B.com " "sub_1" Hw Hn Hsafe).
Defined.

(** ** Idempotence of activation *)

(** C2 as stated fails: on an empty sheet an address that contains "email"
    is appended a second time, because the first copy is taken for the
    header when the rows are read back. *)
Lemma activate_twice_counterexample :
  healthy (store [])
  /\ sheet (snd (upsertPaidUser "myemail@gmail.com" "active" "sub_1" (store [])))
     = [ ["myemail@gmail.com"; "active"; "sub_1"] ]
  /\ sheet (snd (upsertPaidUser "myemail@gmail.com" "active" "sub_1"
                   (snd (upsertPaidUser "myemail@gmail.com" "active" "sub_1" (store [])))))
     = [ ["myemail@gmail.com"; "active"; "sub_1"];
         ["myemail@gmail.com"; "active"; "sub_1"] ].
Proof. split_and!; [split; reflexivity | vm_compute; reflexivity ..]. Qed.

(** C2 (amended): for every e-mail, status, subscription id and starting
    sheet that is not empty, or with an e-mail that does not contain "email"
    (in any case), in a store that answers, [upsertPaidUser] applied twice
    in succession leaves the same sheet as applied once. *)
Theorem activate_idempotent (w : World) (E st sub : string) :
  healthy w ->
  sheet w <> [] \/ JS.includes "email" (JS.toLowerCase E) = false ->
  sheet (snd (upsertPaidUser E st sub (snd (upsertPaidUser E st sub w))))
  = sheet (snd (upsertPaidUser E st sub w)).
Proof.
  intros Hw Hsafe.
  destruct (upsertPaidUser_row E st sub w Hw Hsafe)
    as (Hw1 & k & row1 & Hfind & Hrow1).
  rewrite (upsertPaidUser_healthy E st sub _ Hw1). cbn [snd].
  rewrite Hfind. cbn [wrote Sheets.withSheet sheet]. rewrite Hrow1.
  apply list_insert_id. rewrite <- getDataRows_lookup.
  by apply list_find_Some in Hfind as (Hk & _ & _).
Qed.

Lemma activate_idempotent_witness :
  healthy (store headedSheet)
  /\ (sheet (store headedSheet) <> []
      \/ JS.includes "email" (JS.toLowerCase "new@user.io") = false)
  /\ sheet (snd (upsertPaidUser "new@user.io" "active" "sub_9"
                   (snd (upsertPaidUser "new@user.io" "active" "sub_9" (store headedSheet)))))
     = sheet (snd (upsertPaidUser "new@user.io" "active" "sub_9" (store headedSheet))).
Proof.
  assert (healthy (store headedSheet)) as Hw by (split; reflexivity).
  assert (sheet (store headedSheet) <> []
          \/ JS.includes "email" (JS.toLowerCase "new@user.io") = false) as Hsafe
    by (right; vm_compute; reflexivity).
  split_and!; [exact Hw | exact Hsafe |].
  exact (activate_idempotent (store headedSheet) "new@user.io" "active" "sub_9" Hw Hsafe).
Defined.

(** ** A status update for a subscription nobody holds *)

Section UnknownSubscription.

Lemma getSheetsClient_cases (w : World) :
  getSheetsClient w = (Returns tt, w)
  \/ exists message, getSheetsClient w = (Throws message, w)
                     /\ configured (env w) = false.
Proof.
  unfold getSheetsClient, configured.
  destruct (spreadsheetId (env w) =? ""); [right; eauto |].
  destruct (credentialsJson (env w) =? ""); [right; eauto |].
  destruct (credentialsParse (env w)); [left | right]; eauto.
Qed.

Lemma request_world (c : Call) (w : World) :
  snd (Sheets.request c w) = Sheets.logged c w.
Proof. unfold Sheets.request. by destruct (faults w) as [| [|] fs]. Qed.

Lemma writes_logged_get (range : Range) (w : World) :
  writes (Sheets.logged (ValuesGet range) w) = writes w.
Proof.
  unfold writes. cbn [Sheets.logged calls]. rewrite filter_app.
  rewrite (filter_cons_False _ (ValuesGet range)) by (cbn; congruence).
  rewrite filter_nil. apply app_nil_r.
Qed.

(** Without a matching row the function ends in the world it started in,
    or in that world with the read logged. *)
Lemma updateStatus_no_match (w : World) (sub st : string) :
  st <> "" ->
  Forall (fun row => ~ subscriptionMatches (JS.trim sub) row) (getDataRows (sheet w)) ->
  exists (r : outcome unit) (w' : World),
    updateStatusBySubscriptionId sub st w = (r, w')
    /\ (w' = w \/ w' = Sheets.logged (ValuesGet ColsAC) w)
    /\ (readable w -> r = Returns tt).
Proof.
  intros Hst Hnone. unfold updateStatusBySubscriptionId.
  rewrite (eqb_empty_false _ Hst), orb_false_r.
  destruct (sub =? ""); [by exists (Returns tt), w; split_and!; auto |].
  unfold bind at 1.
  destruct (getSheetsClient_cases w) as [-> | (message & -> & Hconf)].
  - unfold bind, Sheets.get. unfold bind at 1.
    pose proof (request_world (ValuesGet ColsAC) w) as Hworld.
    destruct (Sheets.request (ValuesGet ColsAC) w) as [[[] | message] w'] eqn:Hreq;
      cbn [snd] in Hworld; subst w'.
    + cbn [Sheets.readRange Sheets.logged sheet].
      rewrite firstRow_subscription, getDataRows_take, find_subscription_take.
      rewrite <- list_find_None in Hnone. rewrite Hnone.
      cbn [fmap option_fmap option_map]. unfold ret.
      eexists _, _. split_and!; [reflexivity | by right | done].
    + eexists _, _. split_and!; [reflexivity | by right |].
      intros Hread. rewrite (request_readable _ _ Hread) in Hreq. discriminate.
  - eexists _, _. split_and!; [reflexivity | by left |].
    intros [Hc _]. congruence.
Qed.

End UnknownSubscription.

(** C3: for every subscription id [sub] and non-empty status, if no data row
    has a subscription-id column (as the code reads it, trimmed) equal to
    the trimmed [sub], [updateStatusBySubscriptionId] leaves the sheet as it
    is, issues no write, and returns normally whenever the rows could be
    read. *)
Theorem update_unknown_subscription (w : World) (sub st : string) :
  st <> "" ->
  Forall (fun row => ~ subscriptionMatches (JS.trim sub) row) (getDataRows (sheet w)) ->
  sheet (snd (updateStatusBySubscriptionId sub st w)) = sheet w
  /\ writes (snd (updateStatusBySubscriptionId sub st w)) = writes w
  /\ (readable w -> fst (updateStatusBySubscriptionId sub st w) = Returns tt).
Proof.
  intros Hst Hnone.
  destruct (updateStatus_no_match w sub st Hst Hnone) as (r & w' & -> & Hw' & Hr).
  cbn [fst snd]. split_and!; [| | exact Hr].
  - by destruct Hw' as [-> | ->].
  - destruct Hw' as [-> | ->]; [done | apply writes_logged_get].
Qed.

Lemma update_unknown_subscription_witness :
  "canceled" <> ""
  /\ Forall (fun row => ~ subscriptionMatches (JS.trim "sub_404") row)
       (getDataRows (sheet (store headedSheet)))
  /\ readable (store headedSheet)
  /\ sheet (snd (updateStatusBySubscriptionId "sub_404" "canceled" (store headedSheet)))
     = sheet (store headedSheet)
  /\ writes (snd (updateStatusBySubscriptionId "sub_404" "canceled" (store headedSheet)))
     = writes (store headedSheet)
  /\ fst (updateStatusBySubscriptionId "sub_404" "canceled" (store headedSheet))
     = Returns tt.
Proof.
  assert ("canceled" <> "") as Hst by discriminate.
  assert (Forall (fun row => ~ subscriptionMatches (JS.trim "sub_404") row)
            (getDataRows (sheet (store headedSheet)))) as Hnone.
  { vm_compute. repeat constructor; discriminate. }
  assert (readable (store headedSheet)) as Hread
    by (split; [reflexivity | discriminate]).
  destruct (update_unknown_subscription (store headedSheet) "sub_404" "canceled"
              Hst Hnone) as (Hsheet & Hwrites & Hreturns).
  split_and!; [exact Hst | exact Hnone | exact Hread | exact Hsheet | exact Hwrites |].
  exact (Hreturns Hread).
Defined.

(** ** Legacy rows *)

(** C4: whenever the first data row that matches the queried, normalized
    e-mail has an empty or missing status cell, [checkPaidUserEmail]
    returns [{ paid: true, status: "active" }]. *)
Theorem legacy_row_is_active (w : World) (email : string) (i : nat) (row : Row) :
  readable w ->
  JS.toLowerCase (JS.trim email) <> "" ->
  firstRow (emailTest (JS.toLowerCase (JS.trim email))) (getDataRows (sheet w)) 0
  = Some (i, row) ->
  row !! 1 = None \/ row !! 1 = Some "" ->
  fst (checkPaidUserEmail email w) = Returns {| paid := true; status := Some "active" |}.
Proof.
  intros Hw Hn Hfind Hstatus.
  rewrite (checkPaidUserEmail_readable email w Hw Hn). cbn [fst].
  unfold verdict. rewrite Hfind. unfold rowVerdict, colB.
  by destruct Hstatus as [-> | ->].
Qed.

Lemma legacy_row_is_active_witness :
  readable (store [ ["Email"]; ["old@user.jp"]; ["x@y.z"; ""] ])
  /\ JS.toLowerCase (JS.trim " Old@User.jp") <> ""
  /\ firstRow (emailTest (JS.toLowerCase (JS.trim " Old@User.jp")))
       (getDataRows (sheet (store [ ["Email"]; ["old@user.jp"]; ["x@y.z"; ""] ]))) 0
     = Some (0, ["old@user.jp"])
  /\ (["old@user.jp"] !! 1 = None \/ ["old@user.jp"] !! 1 = Some "")
  /\ fst (checkPaidUserEmail " Old@User.jp"
            (store [ ["Email"]; ["old@user.jp"]; ["x@y.z"; ""] ]))
     = Returns {| paid := true; status := Some "active" |}.
Proof.
  assert (readable (store [ ["Email"]; ["old@user.jp"]; ["x@y.z"; ""] ])) as Hw
    by (split; [reflexivity | discriminate]).
  assert (JS.toLowerCase (JS.trim " Old@User.jp") <> "") as Hn
    by (vm_compute; discriminate).
  assert (firstRow (emailTest (JS.toLowerCase (JS.trim " Old@User.jp")))
            (getDataRows (sheet (store [ ["Email"]; ["old@user.jp"]; ["x@y.z"; ""] ]))) 0
          = Some (0, ["old@user.jp"])) as Hfind by (vm_compute; reflexivity).
  assert (["old@user.jp"] !! 1 = None \/ ["old@user.jp"] !! 1 = Some "") as Hstatus
    by (left; reflexivity).
  split_and!; [exact Hw | exact Hn | exact Hfind | exact Hstatus |].
  exact (legacy_row_is_active _ " Old@User.jp" 0 ["old@user.jp"] Hw Hn Hfind Hstatus).
Defined.

(** ** The e-mail of a checkout session *)

Section SessionEmail.

(** With no key configured every field matches, so the first loop already
    takes text values in field order. *)
Lemma keyedFields_text_only (fields : list Field.t) :
  Forall (fun field => candidate (Field.dropdown field) true = None) fields ->
  keyedFields "" fields = firstTextField fields.
Proof.
  induction 1 as [| field rest Hfield _ IH]; [reflexivity |].
  cbn [keyedFields firstTextField]. cbn [String.eqb orb].
  destruct (candidate (Field.text field) true); [reflexivity |].
  by rewrite Hfield, IH.
Qed.

(** What the claim says does hold for sessions without dropdown values. *)
Lemma getGoogleEmailFromSession_text_only (session : Session.t) (fields : list Field.t) :
  Session.custom_fields session = Some fields ->
  Forall (fun field => candidate (Field.dropdown field) true = None) fields ->
  getGoogleEmailFromSession "" session
  = match firstTextField fields with
    | Some v => Some v
    | None => fallbackEmail session
    end.
Proof.
  intros Hfields Hdrop. unfold getGoogleEmailFromSession, fromCustomFields.
  rewrite Hfields, (keyedFields_text_only fields Hdrop).
  destruct fields as [| field rest]; [reflexivity |].
  cbn [length Nat.ltb Nat.leb String.eqb].
  by destruct (firstTextField (field :: rest)).
Qed.

End SessionEmail.

(** C5 (code at the failing input): with no field key configured and a
    dropdown field ahead of the text field, [getGoogleEmailFromSession]
    returns the dropdown value, not the value of the first text field, and
    the webhook stores it as the paid user's e-mail. *)
Theorem dropdown_value_taken_for_email :
  firstTextField [planField; accountField] = Some "a@b.com"
  /\ getGoogleEmailFromSession "" dropdownFirstSession = Some "pro"
  /\ sheet (snd (onEvent (CheckoutSessionCompleted (Some dropdownFirstSession)) (store [])))
     = [ ["pro"; "active"; "sub_1"] ].
Proof. split_and!; vm_compute; reflexivity. Qed.

(** ** The header row *)

(** C6: when the first cell of the first row contains "email" in any case,
    that row is not a data row: the query and both update paths match on
    the rows below it only, and the data row at position [i] is written at
    sheet row [i + 2], where a sheet without header is written at
    [i + 1]. *)
Theorem header_row_excluded (w : World) (hdr : Row) (rest : list Row) (cell : string) :
  healthy w ->
  sheet w = hdr :: rest ->
  hdr !! 0 = Some cell ->
  JS.includes "email" (JS.toLowerCase cell) = true ->
  getDataRows (sheet w) = rest
  /\ (forall email,
        JS.toLowerCase (JS.trim email) <> "" ->
        fst (checkPaidUserEmail email w)
        = Returns (verdict (JS.toLowerCase (JS.trim email)) rest))
  /\ (forall email st sub i row,
        firstRow (emailTest (JS.toLowerCase (JS.trim email))) rest 0 = Some (i, row) ->
        snd (upsertPaidUser email st sub w)
        = wrote (ValuesUpdate (CellsBC (i + 2)) [[st; trimmedId sub]])
            (hdr :: <[i := Sheets.writeCells 1 [st; trimmedId sub] row]> rest) w)
  /\ (forall sub st i row,
        sub <> "" -> st <> "" ->
        firstRow (subscriptionTest (JS.trim sub)) rest 0 = Some (i, row) ->
        snd (updateStatusBySubscriptionId sub st w)
        = wrote (ValuesUpdate (CellB (i + 2)) [[st]])
            (hdr :: <[i := Sheets.writeCells 1 [st] row]> rest) w)
  /\ (forall w0 email st sub i row,
        healthy w0 ->
        getDataRows (sheet w0) = sheet w0 ->
        firstRow (emailTest (JS.toLowerCase (JS.trim email))) (sheet w0) 0
        = Some (i, row) ->
        snd (upsertPaidUser email st sub w0)
        = wrote (ValuesUpdate (CellsBC (i + 1)) [[st; trimmedId sub]])
            (<[i := Sheets.writeCells 1 [st; trimmedId sub] row]> (sheet w0)) w0)
  /\ (forall w0 sub st i row,
        healthy w0 ->
        sub <> "" -> st <> "" ->
        getDataRows (sheet w0) = sheet w0 ->
        firstRow (subscriptionTest (JS.trim sub)) (sheet w0) 0 = Some (i, row) ->
        snd (updateStatusBySubscriptionId sub st w0)
        = wrote (ValuesUpdate (CellB (i + 1)) [[st]])
            (<[i := Sheets.writeCells 1 [st] row]> (sheet w0)) w0).
Proof.
  intros Hw Hsheet Hcell Hmark.
  assert (getDataRows (sheet w) = rest) as Hdata.
  { rewrite Hsheet. cbn [getDataRows]. by rewrite Hcell, lowerOrEmpty_Some, Hmark. }
  assert (headerOffset (sheet w) = 1) as Hoff.
  { unfold headerOffset. rewrite Hdata, Hsheet. cbn [length]. lia. }
  assert (forall w0, getDataRows (sheet w0) = sheet w0 -> headerOffset (sheet w0) = 0)
    as Hoff0.
  { intros w0 Hw0. unfold headerOffset. rewrite Hw0. lia. }
  split_and!.
  - exact Hdata.
  - intros email Hn.
    by rewrite (checkPaidUserEmail_readable email w (healthy_readable w Hw) Hn), Hdata.
  - intros email st sub i row Hfind. rewrite firstRow_email in Hfind.
    rewrite (upsertPaidUser_healthy email st sub w Hw). cbn [snd].
    rewrite Hdata, Hfind, Hoff, Hsheet. cbn [insert list_insert Nat.add].
    by replace (S (i + 1)) with (i + 2) by lia.
  - intros sub st i row HS Hst Hfind. rewrite firstRow_subscription in Hfind.
    rewrite (updateStatusBySubscriptionId_healthy sub st w Hw HS Hst). cbn [snd].
    rewrite Hdata, Hfind, Hoff, Hsheet. cbn [insert list_insert Nat.add].
    by replace (S (i + 1)) with (i + 2) by lia.
  - intros w0 email st sub i row Hw0 Hdata0 Hfind. rewrite firstRow_email in Hfind.
    rewrite (upsertPaidUser_healthy email st sub w0 Hw0). cbn [snd].
    by rewrite Hdata0, Hfind, (Hoff0 w0 Hdata0).
  - intros w0 sub st i row Hw0 HS Hst Hdata0 Hfind.
    rewrite firstRow_subscription in Hfind.
    rewrite (updateStatusBySubscriptionId_healthy sub st w0 Hw0 HS Hst). cbn [snd].
    by rewrite Hdata0, Hfind, (Hoff0 w0 Hdata0).
Qed.

Lemma header_row_excluded_witness :
  healthy (store headedSheet)
  /\ JS.includes "email" (JS.toLowerCase "Email") = true
  /\ getDataRows (sheet (store headedSheet))
     = [ ["a@b.com"; "canceled"; "sub_0"]; ["c@d.org"; "active"; "sub_7"] ]
  /\ calls (snd (upsertPaidUser "C@D.org" "active" "sub_8" (store headedSheet)))
     = [ ValuesGet ColsAC; ValuesUpdate (CellsBC 3) [["active"; "sub_8"]] ]
  /\ calls (snd (updateStatusBySubscriptionId "sub_0" "past_due" (store headedSheet)))
     = [ ValuesGet ColsAC; ValuesUpdate (CellB 2) [["past_due"]] ].
Proof.
  assert (healthy (store headedSheet)) as Hw by (split; reflexivity).
  assert (JS.includes "email" (JS.toLowerCase "Email") = true) as Hmark
    by (vm_compute; reflexivity).
  destruct (header_row_excluded (store headedSheet)
              ["Email"; "Status"; "Subscription"]
              [ ["a@b.com"; "canceled"; "sub_0"]; ["c@d.org"; "active"; "sub_7"] ]
              "Email" Hw eq_refl eq_refl Hmark)
    as (Hdata & _ & Hupsert & Hupdate & _).
  split_and!; [exact Hw | exact Hmark | exact Hdata | |].
  - rewrite (Hupsert "C@D.org" "active" "sub_8" 1 ["c@d.org"; "active"; "sub_7"])
      by (vm_compute; reflexivity).
    reflexivity.
  - rewrite (Hupdate "sub_0" "past_due" 0 ["a@b.com"; "canceled"; "sub_0"])
      by (discriminate || (vm_compute; reflexivity)).
    reflexivity.
Defined.

(** ** Failures of the store during a query *)

Section CheckRoute.

(** [GET /check] answers 200 whatever happens. *)
Lemma getCheck_always_200 (q : option string) (w : World) :
  code (fst (getCheck q w)) = 200.
Proof.
  unfold getCheck. destruct (JS.trimmedOrEmpty q =? ""); [reflexivity |].
  unfold tryCatch. by destruct (checkPaidUserEmail _ w) as [[r | message] w'].
Qed.

(** A request that fails makes the lookup throw. *)
Lemma checkPaidUserEmail_outage (email : string) (w : World) (fs : list bool) :
  configured (env w) = true ->
  faults w = true :: fs ->
  JS.toLowerCase (JS.trim email) <> "" ->
  fst (checkPaidUserEmail email w) = Throws "request failed".
Proof.
  intros Hc Hf Hn. unfold checkPaidUserEmail.
  rewrite (eqb_empty_false _ Hn). unfold bind at 1.
  rewrite (getSheetsClient_configured w Hc).
  unfold bind, Sheets.get. unfold bind, Sheets.request. by rewrite Hf.
Qed.

(** A store that is not configured makes the lookup throw. *)
Lemma checkPaidUserEmail_unconfigured (email : string) (w : World) :
  configured (env w) = false ->
  JS.toLowerCase (JS.trim email) <> "" ->
  exists message, fst (checkPaidUserEmail email w) = Throws message.
Proof.
  intros Hc Hn. unfold checkPaidUserEmail.
  rewrite (eqb_empty_false _ Hn). unfold bind at 1.
  destruct (getSheetsClient_cases w) as [Hok | (message & -> & _)]; [| eauto].
  exfalso. unfold getSheetsClient, configured in *.
  destruct (spreadsheetId (env w) =? ""); [discriminate |].
  destruct (credentialsJson (env w) =? ""); [discriminate |].
  destruct (credentialsParse (env w)); discriminate.
Qed.

End CheckRoute.

(** C7: whenever the paid-status lookup throws, for whatever e-mail,
    [GET /check] responds 200 with exactly [{ paid: false }], without a
    status field; the error is not passed on to the caller. *)
Theorem check_absorbs_store_failure (q : option string) (w : World) (message : string) :
  fst (checkPaidUserEmail (JS.trimmedOrEmpty q) w) = Throws message ->
  fst (getCheck q w) = {| code := 200; body := JsonCheck false None |}.
Proof.
  intros Hthrow. unfold getCheck.
  destruct (JS.trimmedOrEmpty q =? ""); [reflexivity |].
  unfold tryCatch.
  destruct (checkPaidUserEmail _ w) as [[r | message'] w']; [discriminate | reflexivity].
Qed.

Lemma check_absorbs_store_failure_witness :
  fst (checkPaidUserEmail (JS.trimmedOrEmpty (Some " a@b.com"))
         (outage [ ["a@b.com"; "active"; "sub_1"] ]))
  = Throws "request failed"
  /\ fst (getCheck (Some " a@b.com") (outage [ ["a@b.com"; "active"; "sub_1"] ]))
     = {| code := 200; body := JsonCheck false None |}.
Proof.
  assert (fst (checkPaidUserEmail (JS.trimmedOrEmpty (Some " a@b.com"))
                 (outage [ ["a@b.com"; "active"; "sub_1"] ]))
          = Throws "request failed") as Hthrow by (vm_compute; reflexivity).
  split; [exact Hthrow |].
  exact (check_absorbs_store_failure (Some " a@b.com")
           (outage [ ["a@b.com"; "active"; "sub_1"] ]) "request failed" Hthrow).
Defined.

(** ** A data row taken for the header *)

(** C8: a first row whose first cell contains "email" in any case is
    dropped by [getDataRows] even when it is a stored record; unless a
    later row holds the same address, [checkPaidUserEmail] for exactly
    that address returns [{ paid: false }].  The stored, activated record
    ["myemail@gmail.com"; "active"; "sub_1"] is such a row. *)
Theorem first_row_with_email_is_invisible (w : World) (row : Row) (rest : list Row)
    (cell : string) :
  readable w ->
  sheet w = row :: rest ->
  row !! 0 = Some cell ->
  JS.includes "email" (JS.toLowerCase cell) = true ->
  Forall (fun r => ~ emailMatches (JS.toLowerCase (JS.trim cell)) r) rest ->
  getDataRows (sheet w) = rest
  /\ fst (checkPaidUserEmail cell w) = Returns {| paid := false; status := None |}.
Proof.
  intros Hw Hsheet Hcell Hmark Hrest.
  assert (getDataRows (sheet w) = rest) as Hdata.
  { rewrite Hsheet. cbn [getDataRows]. by rewrite Hcell, lowerOrEmpty_Some, Hmark. }
  split; [exact Hdata |].
  destruct (String.eqb_spec (JS.toLowerCase (JS.trim cell)) "") as [Hn | Hn].
  - unfold checkPaidUserEmail. by rewrite Hn.
  - rewrite (checkPaidUserEmail_readable cell w Hw Hn). cbn [fst].
    rewrite verdict_find. rewrite Hdata.
    rewrite <- list_find_None in Hrest. by rewrite Hrest.
Qed.

Lemma first_row_with_email_is_invisible_witness :
  readable (store [ ["myemail@gmail.com"; "active"; "sub_1"] ])
  /\ JS.includes "email" (JS.toLowerCase "myemail@gmail.com") = true
  /\ getDataRows (sheet (store [ ["myemail@gmail.com"; "active"; "sub_1"] ])) = []
  /\ fst (checkPaidUserEmail "myemail@gmail.com"
            (store [ ["myemail@gmail.com"; "active"; "sub_1"] ]))
     = Returns {| paid := false; status := None |}.
Proof.
  assert (readable (store [ ["myemail@gmail.com"; "active"; "sub_1"] ])) as Hw
    by (split; [reflexivity | discriminate]).
  assert (JS.includes "email" (JS.toLowerCase "myemail@gmail.com") = true) as Hmark
    by (vm_compute; reflexivity).
  split_and!; [exact Hw | exact Hmark | ..];
    apply (first_row_with_email_is_invisible
             (store [ ["myemail@gmail.com"; "active"; "sub_1"] ])
             ["myemail@gmail.com"; "active"; "sub_1"] [] "myemail@gmail.com"
             Hw eq_refl eq_refl Hmark (Forall_nil_2 _)).
Defined.

(** ** Duplicate rows *)

(** C9: when two or more data rows hold the same normalized e-mail
    (column A trimmed and lower-cased), [upsertPaidUser] rewrites the
    first of them only, the first row of the data rows whose column A
    matches, every other row, the later duplicates among them, is left as
    it was, and [checkPaidUserEmail] answers from that first matching row
    alone. *)
Theorem first_duplicate_only (w : World) (email st sub : string) (i j : nat)
    (ri rj : Row) :
  healthy w ->
  getDataRows (sheet w) !! i = Some ri ->
  getDataRows (sheet w) !! j = Some rj ->
  emailMatches (JS.toLowerCase (JS.trim email)) ri ->
  emailMatches (JS.toLowerCase (JS.trim email)) rj ->
  i < j ->
  (forall k rk,
     k < i -> getDataRows (sheet w) !! k = Some rk ->
     ~ emailMatches (JS.toLowerCase (JS.trim email)) rk) ->
  sheet (snd (upsertPaidUser email st sub w))
  = <[headerOffset (sheet w) + i := Sheets.writeCells 1 [st; trimmedId sub] ri]>
      (sheet w)
  /\ getDataRows (sheet (snd (upsertPaidUser email st sub w))) !! i
     = Some (Sheets.writeCells 1 [st; trimmedId sub] ri)
  /\ getDataRows (sheet (snd (upsertPaidUser email st sub w))) !! j = Some rj
  /\ (forall k, k <> i ->
        getDataRows (sheet (snd (upsertPaidUser email st sub w))) !! k
        = getDataRows (sheet w) !! k)
  /\ (JS.toLowerCase (JS.trim email) <> "" ->
      fst (checkPaidUserEmail email w) = Returns (rowVerdict ri)
      /\ fst (checkPaidUserEmail email (snd (upsertPaidUser email st sub w)))
         = Returns (rowVerdict (Sheets.writeCells 1 [st; trimmedId sub] ri))).
Proof.
  intros Hw Hi Hj Hmatchi Hmatchj Hlt Hfirst.
  assert (list_find (emailMatches (JS.toLowerCase (JS.trim email)))
            (getDataRows (sheet w)) = Some (i, ri)) as Hfind.
  { apply list_find_Some. split_and!; [exact Hi | exact Hmatchi |].
    intros k rk Hk Hki. by apply (Hfirst k rk). }
  rewrite (upsertPaidUser_healthy email st sub w Hw). cbn [snd].
  rewrite Hfind. cbn [wrote Sheets.withSheet sheet].
  destruct (getDataRows_write (sheet w) i ri [st; trimmedId sub] Hi) as [Hdata _].
  rewrite Hdata.
  assert (i < length (getDataRows (sheet w))) as Hlen by by eapply lookup_lt_Some.
  split_and!.
  - reflexivity.
  - by apply list_lookup_insert_eq.
  - by rewrite list_lookup_insert_ne by lia.
  - intros k Hk. by rewrite list_lookup_insert_ne by lia.
  - intros Hn. split.
    + rewrite (checkPaidUserEmail_readable email w (healthy_readable w Hw) Hn).
      cbn [fst]. rewrite verdict_find. by rewrite Hfind.
    + rewrite checkPaidUserEmail_readable;
        [| by apply healthy_readable, withSheet_healthy, logged_healthy, logged_healthy
         | exact Hn].
      unfold wrote. cbn [fst Sheets.withSheet sheet]. rewrite verdict_find. rewrite Hdata.
      by rewrite (find_email_insert _ _ _ ri _ Hfind (colA_writeCells _ _ _)).
Qed.

Lemma first_duplicate_only_witness :
  healthy (store [ ["x@y.z"; "active"; "sub_1"];
                   ["a@b.com"; "canceled"; "sub_0"];
                   ["A@B.com "; "past_due"; "sub_3"] ])
  /\ sheet (snd (upsertPaidUser "a@b.com" "active" "sub_5"
                   (store [ ["x@y.z"; "active"; "sub_1"];
                            ["a@b.com"; "canceled"; "sub_0"];
                            ["A@B.com "; "past_due"; "sub_3"] ])))
     = [ ["x@y.z"; "active"; "sub_1"];
         ["a@b.com"; "active"; "sub_5"];
         ["A@B.com "; "past_due"; "sub_3"] ]
  /\ fst (checkPaidUserEmail "a@b.com"
            (store [ ["x@y.z"; "active"; "sub_1"];
                     ["a@b.com"; "canceled"; "sub_0"];
                     ["A@B.com "; "past_due"; "sub_3"] ]))
     = Returns {| paid := false; status := Some "canceled" |}.
Proof.
  assert (healthy (store [ ["x@y.z"; "active"; "sub_1"];
                           ["a@b.com"; "canceled"; "sub_0"];
                           ["A@B.com "; "past_due"; "sub_3"] ])) as Hw
    by (split; reflexivity).
  assert (forall k rk,
            k < 1 ->
            getDataRows (sheet (store [ ["x@y.z"; "active"; "sub_1"];
                                        ["a@b.com"; "canceled"; "sub_0"];
                                        ["A@B.com "; "past_due"; "sub_3"] ])) !! k
            = Some rk ->
            ~ emailMatches (JS.toLowerCase (JS.trim "a@b.com")) rk) as Hfirst.
  { intros k rk Hk. replace k with 0 by lia. intros [= <-]. vm_compute. discriminate. }
  destruct (first_duplicate_only
              (store [ ["x@y.z"; "active"; "sub_1"];
                       ["a@b.com"; "canceled"; "sub_0"];
                       ["A@B.com "; "past_due"; "sub_3"] ])
              "a@b.com" "active" "sub_5" 1 2
              ["a@b.com"; "canceled"; "sub_0"] ["A@B.com "; "past_due"; "sub_3"]
              Hw eq_refl eq_refl eq_refl eq_refl (Nat.lt_succ_diag_r 1) Hfirst)
    as (Hsheet & _ & _ & _ & Hcheck).
  split_and!; [exact Hw | exact Hsheet |].
  apply Hcheck. vm_compute. discriminate.
Defined.

(** ** A status update without a status *)

(** C10: with an empty status [updateStatusBySubscriptionId] returns at
    once: whatever the subscription id and the world, configured or not,
    failing or not, nothing is read or written and nothing is thrown.  A
    [customer.subscription.updated] event whose subscription carries no
    status, or an empty one, is acknowledged in the same way. *)
Theorem empty_status_is_ignored (w : World) (sub : string) (id : option string) :
  updateStatusBySubscriptionId sub "" w = (Returns tt, w)
  /\ onEvent (CustomerSubscriptionUpdated
                (Some {| Subscription.id := id; Subscription.status := None |})) w
     = ({| code := 200; body := JsonReceived |}, w)
  /\ onEvent (CustomerSubscriptionUpdated
                (Some {| Subscription.id := id; Subscription.status := Some "" |})) w
     = ({| code := 200; body := JsonReceived |}, w).
Proof.
  assert (forall s, updateStatusBySubscriptionId s "" w = (Returns tt, w)) as Hnop.
  { intros s. unfold updateStatusBySubscriptionId. cbn [String.eqb].
    by rewrite orb_true_r. }
  split_and!; [apply Hnop | |];
    cbn [onEvent Subscription.id Subscription.status JS.orEmpty];
    (destruct (JS.truthy id); cbn [negb]; [| reflexivity]);
    unfold tryCatch; by rewrite Hnop.
Qed.

(** * Further properties of [server.js] *)

(** ** Normalization: [String(x).trim().toLowerCase()] *)

Section Normalization.

Lemma lowerChar_idempotent (c : ascii) : JS.lowerChar (JS.lowerChar c) = JS.lowerChar c.
Proof. destruct c as [[] [] [] [] [] [] [] []]; vm_compute; reflexivity. Qed.

Lemma isWhiteSpace_lowerChar (c : ascii) :
  JS.isWhiteSpace (JS.lowerChar c) = JS.isWhiteSpace c.
Proof. destruct c as [[] [] [] [] [] [] [] []]; vm_compute; reflexivity. Qed.

Lemma toLowerCase_idempotent (s : string) :
  JS.toLowerCase (JS.toLowerCase s) = JS.toLowerCase s.
Proof.
  induction s as [| c s IH]; [reflexivity |].
  cbn [JS.toLowerCase]. by rewrite lowerChar_idempotent, IH.
Qed.

Lemma trimStart_toLowerCase (s : string) :
  JS.trimStart (JS.toLowerCase s) = JS.toLowerCase (JS.trimStart s).
Proof.
  induction s as [| c s IH]; [reflexivity |].
  cbn [JS.toLowerCase JS.trimStart]. rewrite isWhiteSpace_lowerChar.
  by destruct (JS.isWhiteSpace c).
Qed.

Lemma trimEnd_toLowerCase (s : string) :
  JS.trimEnd (JS.toLowerCase s) = JS.toLowerCase (JS.trimEnd s).
Proof.
  induction s as [| c s IH]; [reflexivity |].
  cbn [JS.toLowerCase JS.trimEnd]. rewrite IH, isWhiteSpace_lowerChar.
  destruct (JS.trimEnd s); cbn [JS.toLowerCase]; [| reflexivity].
  by destruct (JS.isWhiteSpace c).
Qed.

Lemma trim_toLowerCase (s : string) :
  JS.trim (JS.toLowerCase s) = JS.toLowerCase (JS.trim s).
Proof. unfold JS.trim. by rewrite trimEnd_toLowerCase, trimStart_toLowerCase. Qed.

Lemma trimStart_idempotent (s : string) :
  JS.trimStart (JS.trimStart s) = JS.trimStart s.
Proof.
  induction s as [| c s IH]; [reflexivity |].
  cbn [JS.trimStart]. destruct (JS.isWhiteSpace c) eqn:Hc; [exact IH |].
  cbn [JS.trimStart]. by rewrite Hc.
Qed.

Lemma trimEnd_idempotent (s : string) : JS.trimEnd (JS.trimEnd s) = JS.trimEnd s.
Proof.
  induction s as [| c s IH]; [reflexivity |].
  cbn [JS.trimEnd]. destruct (JS.trimEnd s) as [| d t] eqn:Ht.
  - destruct (JS.isWhiteSpace c) eqn:Hc; [reflexivity |].
    cbn [JS.trimEnd]. by rewrite Hc.
  - change (JS.trimEnd (String c (String d t))) with
      (match JS.trimEnd (String d t) with
       | EmptyString => if JS.isWhiteSpace c then EmptyString else String c EmptyString
       | u => String c u
       end).
    by rewrite IH.
Qed.

Lemma trimEnd_trimStart (s : string) :
  JS.trimEnd (JS.trimStart s) = JS.trimStart (JS.trimEnd s).
Proof.
  induction s as [| c s IH]; [reflexivity |].
  cbn [JS.trimStart]. destruct (JS.isWhiteSpace c) eqn:Hc.
  - rewrite IH. cbn [JS.trimEnd]. rewrite Hc.
    destruct (JS.trimEnd s) as [| d t]; [reflexivity |].
    cbn [JS.trimStart]. by rewrite Hc.
  - cbn [JS.trimEnd]. rewrite Hc.
    destruct (JS.trimEnd s); cbn [JS.trimStart]; by rewrite Hc.
Qed.

Lemma trim_idempotent (s : string) : JS.trim (JS.trim s) = JS.trim s.
Proof.
  unfold JS.trim.
  by rewrite trimEnd_trimStart, trimEnd_idempotent, trimStart_idempotent.
Qed.

Lemma normalize_idempotent (s : string) :
  JS.toLowerCase (JS.trim (JS.toLowerCase (JS.trim s))) = JS.toLowerCase (JS.trim s).
Proof. by rewrite trim_toLowerCase, trim_idempotent, toLowerCase_idempotent. Qed.

End Normalization.

(** ** The store functions in a world that may fail *)

Section Runs.

Lemma getSheetsClient_unconfigured (w : World) :
  configured (env w) = false ->
  exists message, getSheetsClient w = (Throws message, w).
Proof.
  unfold getSheetsClient, configured.
  destruct (spreadsheetId (env w) =? ""); [eauto |].
  destruct (credentialsJson (env w) =? ""); [eauto |].
  destruct (credentialsParse (env w)); [discriminate | eauto].
Qed.

Lemma get_run (range : Range) (w : World) :
  Sheets.get range w
  = match faults w with
    | true :: _ => (Throws "request failed", Sheets.logged (ValuesGet range) w)
    | _ => (Returns (Sheets.readRange range (sheet w)),
            Sheets.logged (ValuesGet range) w)
    end.
Proof.
  unfold Sheets.get, bind, Sheets.request.
  by destruct (faults w) as [| [|] fs].
Qed.

Lemma update_run (range : Range) (cells : list string) (r : nat) (row : Row)
    (w : World) :
  sheet w !! r = Some row ->
  Sheets.writeRange range [cells] (sheet w)
  = Some (Sheets.writeRow r (Sheets.writeCells 1 cells) (sheet w)) ->
  Sheets.update range [cells] w
  = match faults w with
    | true :: _ =>
        (Throws "request failed", Sheets.logged (ValuesUpdate range [cells]) w)
    | _ =>
        (Returns tt,
         Sheets.withSheet (<[r := Sheets.writeCells 1 cells row]> (sheet w))
           (Sheets.logged (ValuesUpdate range [cells]) w))
    end.
Proof.
  intros Hr Hrange. unfold Sheets.update, bind, Sheets.request.
  destruct (faults w) as [| [|] fs]; cbn [Sheets.logged sheet];
    rewrite ?Hrange, ?(writeRow_insert _ _ _ _ Hr); reflexivity.
Qed.

Lemma append_run (range : Range) (values : list Row) (w : World) :
  Sheets.append range values w
  = match faults w with
    | true :: _ =>
        (Throws "request failed", Sheets.logged (ValuesAppend range values) w)
    | _ =>
        (Returns tt,
         Sheets.withSheet (sheet w ++ values)
           (Sheets.logged (ValuesAppend range values) w))
    end.
Proof.
  unfold Sheets.append, bind, Sheets.request.
  by destruct (faults w) as [| [|] fs].
Qed.

Lemma firstRow_email_take (n : nat) (normalized : string) (rows : list Row) :
  firstRow (emailTest normalized) (take (S n) <$> rows) 0
  = prod_map id (take (S n)) <$> firstRow (emailTest normalized) rows 0.
Proof. rewrite !firstRow_email. apply find_email_take. Qed.

Lemma firstRow_subscription_take (n : nat) (subId : string) (rows : list Row) :
  firstRow (subscriptionTest subId) (take (S (S (S n))) <$> rows) 0
  = prod_map id (take (S (S (S n)))) <$> firstRow (subscriptionTest subId) rows 0.
Proof. rewrite !firstRow_subscription. apply find_subscription_take. Qed.

Lemma firstRow_lookup (test : Row -> bool) (rows : list Row) (k i : nat) (row : Row) :
  firstRow test rows k = Some (i, row) ->
  k <= i /\ rows !! (i - k) = Some row /\ test row = true.
Proof.
  revert k. induction rows as [| r rest IH]; intros k; [discriminate |].
  cbn [firstRow]. destruct (test r) eqn:Hr.
  - intros [= <- <-]. rewrite Nat.sub_diag. by split_and!.
  - intros (Hle & Hlook & Htest)%IH. split_and!; [lia | | exact Htest].
    replace (i - k) with (S (i - S k)) by lia. exact Hlook.
Qed.

(** The part of [upsertPaidUser] that follows the read. *)
Lemma upsertPaidUser_write (email st subscriptionId : string) (w : World) :
  let allRows := Sheets.readRange ColsAC (sheet w) in
  match firstRow (emailTest (JS.toLowerCase (JS.trim email))) (getDataRows allRows) 0 with
  | Some (i, _) =>
      Sheets.update
        (CellsBC (length allRows - length (getDataRows allRows) + i + 1))
        [[st; if subscriptionId =? "" then "" else JS.trim subscriptionId]]
  | None =>
      Sheets.append ColsAC
        [[email; st; if subscriptionId =? "" then "" else JS.trim subscriptionId]]
  end w
  = match faults w with
    | true :: _ =>
        (Throws "request failed",
         Sheets.logged (fst (upsertPlan email st subscriptionId (sheet w))) w)
    | _ =>
        (Returns tt,
         Sheets.withSheet (snd (upsertPlan email st subscriptionId (sheet w)))
           (Sheets.logged (fst (upsertPlan email st subscriptionId (sheet w))) w))
    end.
Proof.
  cbn [Sheets.readRange].
  rewrite getDataRows_take, firstRow_email_take, !length_fmap.
  fold (headerOffset (sheet w)). fold (trimmedId subscriptionId).
  unfold upsertPlan.
  destruct (firstRow _ (getDataRows (sheet w)) 0) as [[i row] |] eqn:Hfind;
    cbn [fmap option_fmap option_map prod_map fst snd].
  - apply firstRow_lookup in Hfind as (_ & Hi & _).
    rewrite Nat.sub_0_r, getDataRows_lookup in Hi.
    rewrite (update_run _ _ (headerOffset (sheet w) + i) row);
      [reflexivity | exact Hi |].
    rewrite Nat.add_1_r. reflexivity.
  - by rewrite append_run.
Qed.

(** [upsertPaidUser] once the client is configured: the read, then the
    planned write, each of which may throw. *)
Lemma upsertPaidUser_run (email st subscriptionId : string) (w : World) :
  configured (env w) = true ->
  upsertPaidUser email st subscriptionId w
  = match faults w with
    | true :: _ => (Throws "request failed", Sheets.logged (ValuesGet ColsAC) w)
    | _ =>
        let c := fst (upsertPlan email st subscriptionId (sheet w)) in
        let w1 := Sheets.logged c (Sheets.logged (ValuesGet ColsAC) w) in
        match tail (faults w) with
        | true :: _ => (Throws "request failed", w1)
        | _ => (Returns tt,
                Sheets.withSheet (snd (upsertPlan email st subscriptionId (sheet w))) w1)
        end
    end.
Proof.
  intros Hc. unfold upsertPaidUser. unfold bind at 1.
  rewrite (getSheetsClient_configured w Hc). unfold bind at 1.
  rewrite get_run.
  pose proof (upsertPaidUser_write email st subscriptionId
                (Sheets.logged (ValuesGet ColsAC) w)) as Hwrite.
  cbn [Sheets.logged sheet faults] in Hwrite.
  destruct (faults w) as [| [|] fs]; [exact Hwrite | reflexivity | exact Hwrite].
Qed.

(** The part of [updateStatusBySubscriptionId] that follows the read. *)
Lemma updateStatus_write (subscriptionId st : string) (w : World) :
  let allRows := Sheets.readRange ColsAC (sheet w) in
  match firstRow (subscriptionTest (JS.trim subscriptionId)) (getDataRows allRows) 0 with
  | Some (i, _) =>
      Sheets.update
        (CellB (length allRows - length (getDataRows allRows) + i + 1)) [[st]]
  | None => ret tt
  end w
  = match statusPlan subscriptionId st (sheet w) with
    | Some (c, rows') =>
        match faults w with
        | true :: _ => (Throws "request failed", Sheets.logged c w)
        | _ => (Returns tt, Sheets.withSheet rows' (Sheets.logged c w))
        end
    | None => (Returns tt, w)
    end.
Proof.
  cbn [Sheets.readRange].
  rewrite getDataRows_take, firstRow_subscription_take, !length_fmap.
  fold (headerOffset (sheet w)). unfold statusPlan.
  destruct (firstRow _ (getDataRows (sheet w)) 0) as [[i row] |] eqn:Hfind;
    cbn [fmap option_fmap option_map prod_map fst snd]; [| reflexivity].
  apply firstRow_lookup in Hfind as (_ & Hi & _).
  rewrite Nat.sub_0_r, getDataRows_lookup in Hi.
  rewrite (update_run _ _ (headerOffset (sheet w) + i) row);
    [reflexivity | exact Hi |].
  rewrite Nat.add_1_r. reflexivity.
Qed.

Lemma updateStatus_run (subscriptionId st : string) (w : World) :
  configured (env w) = true ->
  subscriptionId <> "" -> st <> "" ->
  updateStatusBySubscriptionId subscriptionId st w
  = match faults w with
    | true :: _ => (Throws "request failed", Sheets.logged (ValuesGet ColsAC) w)
    | _ =>
        let w1 := Sheets.logged (ValuesGet ColsAC) w in
        match statusPlan subscriptionId st (sheet w) with
        | Some (c, rows') =>
            match tail (faults w) with
            | true :: _ => (Throws "request failed", Sheets.logged c w1)
            | _ => (Returns tt, Sheets.withSheet rows' (Sheets.logged c w1))
            end
        | None => (Returns tt, w1)
        end
    end.
Proof.
  intros Hc Hs Hst. unfold updateStatusBySubscriptionId.
  rewrite (eqb_empty_false _ Hs), (eqb_empty_false _ Hst). cbn [orb].
  unfold bind at 1. rewrite (getSheetsClient_configured w Hc). unfold bind at 1.
  rewrite get_run.
  pose proof (updateStatus_write subscriptionId st
                (Sheets.logged (ValuesGet ColsAC) w)) as Hwrite.
  cbn [Sheets.logged sheet faults] in Hwrite.
  destruct (faults w) as [| [|] fs]; [exact Hwrite | reflexivity | exact Hwrite].
Qed.

End Runs.

(** ** The paid-status query *)

Section Query.

(** What [checkPaidUserEmail] can return, and the worlds it can end in. *)
Lemma checkPaidUserEmail_cases (email : string) (w : World) :
  let normalized := JS.toLowerCase (JS.trim email) in
  (normalized = ""
   /\ checkPaidUserEmail email w = (Returns {| paid := false; status := None |}, w))
  \/ (normalized <> ""
      /\ exists message, checkPaidUserEmail email w = (Throws message, w))
  \/ (normalized <> ""
      /\ exists message,
           checkPaidUserEmail email w
           = (Throws message, Sheets.logged (ValuesGet ColsAB) w))
  \/ (normalized <> ""
      /\ checkPaidUserEmail email w
         = (Returns (verdict normalized (getDataRows (sheet w))),
            Sheets.logged (ValuesGet ColsAB) w)).
Proof.
  intros normalized. subst normalized.
  destruct (String.eqb_spec (JS.toLowerCase (JS.trim email)) "") as [Hn | Hn].
  { left. split; [exact Hn |]. unfold checkPaidUserEmail. by rewrite Hn. }
  right. destruct (configured (env w)) eqn:Hc.
  - destruct (faults w) as [| [|] fs] eqn:Hf.
    + right; right. split; [exact Hn |].
      apply checkPaidUserEmail_readable; [| exact Hn]. split; [exact Hc | by rewrite Hf].
    + right; left. split; [exact Hn |]. exists "request failed".
      unfold checkPaidUserEmail. rewrite (eqb_empty_false _ Hn). unfold bind at 1.
      rewrite (getSheetsClient_configured w Hc). unfold bind. by rewrite get_run, Hf.
    + right; right. split; [exact Hn |].
      apply checkPaidUserEmail_readable; [| exact Hn]. split; [exact Hc | by rewrite Hf].
  - left. split; [exact Hn |].
    destruct (getSheetsClient_unconfigured w Hc) as [message Hthrow].
    exists message. unfold checkPaidUserEmail. rewrite (eqb_empty_false _ Hn).
    unfold bind at 1. by rewrite Hthrow.
Qed.

Lemma rowVerdict_paid (row : Row) :
  paid (rowVerdict row) = true
  <-> colB row = "" \/ JS.toLowerCase (colB row) = "active".
Proof.
  unfold rowVerdict. cbn [paid]. generalize (colB row). intros b.
  destruct (String.eqb_spec b "") as [Hb | Hb].
  - split; [by left | reflexivity].
  - rewrite String.eqb_eq. unfold STATUS_ACTIVE. split; [by right |].
    by intros [? | ?].
Qed.

Lemma rowVerdict_status (row : Row) :
  exists st, status (rowVerdict row) = Some st /\ st <> ""
             /\ (paid (rowVerdict row) = true -> JS.toLowerCase st = "active").
Proof.
  unfold rowVerdict. cbn [paid status]. generalize (colB row). intros b.
  destruct (String.eqb_spec b "") as [Hb | Hb].
  - exists "active". by split_and!.
  - exists b. rewrite (eqb_empty_false _ Hb).
    split_and!; [reflexivity | exact Hb |]. by intros ?%String.eqb_eq.
Qed.

End Query.

(** X1: a query whose e-mail is blank (empty or white space only) is
    answered [{ paid: false }] without the client being built or any
    request being issued: the world is untouched, configured or not. *)
Theorem blank_query_never_reaches_store (email : string) (w : World) :
  JS.toLowerCase (JS.trim email) = "" ->
  checkPaidUserEmail email w = (Returns {| paid := false; status := None |}, w)
  /\ getCheck (Some email) w = ({| code := 200; body := JsonCheck false None |}, w)
  /\ getCheck None w = ({| code := 200; body := JsonCheck false None |}, w).
Proof.
  intros Hn. split_and!; [| | reflexivity].
  - unfold checkPaidUserEmail. by rewrite Hn.
  - apply toLowerCase_empty in Hn. unfold getCheck.
    by rewrite trimmedOrEmpty_Some, Hn.
Qed.

Lemma blank_query_never_reaches_store_witness :
  JS.toLowerCase (JS.trim "   ") = ""
  /\ getCheck (Some "   ") (outage headedSheet)
     = ({| code := 200; body := JsonCheck false None |}, outage headedSheet).
Proof.
  assert (JS.toLowerCase (JS.trim "   ") = "") as Hn by (vm_compute; reflexivity).
  split; [exact Hn |].
  exact (proj1 (proj2 (blank_query_never_reaches_store "   " (outage headedSheet) Hn))).
Defined.

(** X2: the query is read-only.  Whatever the e-mail and the world,
    [checkPaidUserEmail] leaves the sheet as it is, issues no write, and
    issues at most one request, the read of columns A to B. *)
Theorem query_is_read_only (email : string) (w : World) :
  sheet (snd (checkPaidUserEmail email w)) = sheet w
  /\ writes (snd (checkPaidUserEmail email w)) = writes w
  /\ (calls (snd (checkPaidUserEmail email w)) = calls w
      \/ calls (snd (checkPaidUserEmail email w)) = calls w ++ [ValuesGet ColsAB]).
Proof.
  destruct (checkPaidUserEmail_cases email w)
    as [[_ ->] | [[_ [m ->]] | [[_ [m ->]] | [_ ->]]]]; cbn [snd];
    rewrite ?writes_logged_get; split_and!; auto.
Qed.

(** X3: when the lookup reaches the rows, [paid] is true exactly when the
    loop stops at a row whose trimmed status cell is empty or reads
    "active" in any case; no matching row means not paid. *)
Theorem paid_iff_first_match_active (email : string) (w : World) (r : CheckResult) :
  JS.toLowerCase (JS.trim email) <> "" ->
  fst (checkPaidUserEmail email w) = Returns r ->
  paid r = true
  <-> exists i row,
        firstRow (emailTest (JS.toLowerCase (JS.trim email)))
          (getDataRows (sheet w)) 0 = Some (i, row)
        /\ (colB row = "" \/ JS.toLowerCase (colB row) = "active").
Proof.
  intros Hn Hr.
  destruct (checkPaidUserEmail_cases email w)
    as [[Hn' _] | [[_ [m Hrun]] | [[_ [m Hrun]] | [_ Hrun]]]];
    [done | rewrite Hrun in Hr; discriminate Hr ..
     | rewrite Hrun in Hr; cbn [fst] in Hr; injection Hr as <-].
  unfold verdict.
  destruct (firstRow _ (getDataRows (sheet w)) 0) as [[i row] |].
  - rewrite rowVerdict_paid. split; [eauto |]. by intros (? & ? & [= <- <-] & ?).
  - cbn [paid]. split; [discriminate |]. by intros (? & ? & ? & ?).
Qed.

Lemma paid_iff_first_match_active_witness :
  JS.toLowerCase (JS.trim "c@d.org") <> ""
  /\ fst (checkPaidUserEmail "c@d.org" (store headedSheet))
     = Returns {| paid := true; status := Some "active" |}
  /\ exists i row,
       firstRow (emailTest (JS.toLowerCase (JS.trim "c@d.org")))
         (getDataRows (sheet (store headedSheet))) 0 = Some (i, row)
       /\ (colB row = "" \/ JS.toLowerCase (colB row) = "active").
Proof.
  assert (JS.toLowerCase (JS.trim "c@d.org") <> "") as Hn by (vm_compute; discriminate).
  assert (fst (checkPaidUserEmail "c@d.org" (store headedSheet))
          = Returns {| paid := true; status := Some "active" |}) as Hr
    by (vm_compute; reflexivity).
  split_and!; [exact Hn | exact Hr |].
  exact (proj1 (paid_iff_first_match_active "c@d.org" (store headedSheet) _ Hn Hr)
           eq_refl).
Defined.

(** X4: the status of a matching row is echoed trimmed, in its own case:
    when the loop stops at a row whose status cell is not blank, the answer
    carries the trimmed cell, and [paid] compares it with "active" without
    regard to case. *)
Theorem status_echoed_trimmed (email cell : string) (w : World) (i : nat) (row : Row) :
  readable w ->
  JS.toLowerCase (JS.trim email) <> "" ->
  firstRow (emailTest (JS.toLowerCase (JS.trim email))) (getDataRows (sheet w)) 0
  = Some (i, row) ->
  row !! 1 = Some cell ->
  JS.trim cell <> "" ->
  fst (checkPaidUserEmail email w)
  = Returns {| paid := JS.toLowerCase (JS.trim cell) =? "active";
               status := Some (JS.trim cell) |}.
Proof.
  intros Hw Hn Hfind Hcell Hblank.
  rewrite (checkPaidUserEmail_readable email w Hw Hn). cbn [fst].
  unfold verdict. rewrite Hfind. unfold rowVerdict, colB.
  rewrite Hcell, trimmedOrEmpty_Some, !(eqb_empty_false _ Hblank). reflexivity.
Qed.

Lemma status_echoed_trimmed_witness :
  readable (store [ ["a@b.com"; " Past_Due "] ])
  /\ fst (checkPaidUserEmail "A@b.com" (store [ ["a@b.com"; " Past_Due "] ]))
     = Returns {| paid := false; status := Some "Past_Due" |}.
Proof.
  assert (readable (store [ ["a@b.com"; " Past_Due "] ])) as Hw
    by (split; [reflexivity | discriminate]).
  split; [exact Hw |].
  refine (status_echoed_trimmed "A@b.com" " Past_Due "
            (store [ ["a@b.com"; " Past_Due "] ]) 0 ["a@b.com"; " Past_Due "]
            Hw _ eq_refl eq_refl _); vm_compute; discriminate.
Defined.

(** X5: whatever the query and the world, [GET /check] answers 200 with a
    [{ paid, status? }] body in which [paid: true] always comes with a
    status that reads "active" in some case, and a status, when present,
    is never empty. *)
Theorem check_response_invariant (q : option string) (w : World) :
  exists p s,
    fst (getCheck q w) = {| code := 200; body := JsonCheck p s |}
    /\ (p = true -> exists st, s = Some st /\ JS.toLowerCase st = "active")
    /\ (forall st, s = Some st -> st <> "").
Proof.
  unfold getCheck. destruct (JS.trimmedOrEmpty q =? "").
  { exists false, None. by split_and!. }
  unfold tryCatch.
  destruct (checkPaidUserEmail_cases (JS.trimmedOrEmpty q) w)
    as [[_ ->] | [[_ [m ->]] | [[_ [m ->]] | [_ ->]]]]; cbn [json fst];
    try (exists false, None; by split_and!).
  unfold verdict.
  destruct (firstRow _ (getDataRows (sheet w)) 0) as [[i row] |];
    [| exists false, None; by split_and!].
  destruct (rowVerdict_status row) as (st & Hst & Hne & Hpaid).
  exists (paid (rowVerdict row)), (Some st). rewrite Hst. cbn [JS.truthy].
  rewrite (eqb_empty_false _ Hne). cbn [negb].
  split_and!; [reflexivity | eauto | by intros ? [= <-]].
Qed.

(** ** The write paths in every world *)

Section Writes.

Lemma writes_logged_write (c : Call) (w : World) :
  isWrite c = true -> writes (Sheets.logged c w) = writes w ++ [c].
Proof.
  intros Hc. unfold writes. cbn [Sheets.logged calls]. rewrite filter_app.
  by rewrite (filter_cons_True _ c) by exact Hc.
Qed.

Lemma upsertPlan_isWrite (email st subscriptionId : string) (rows : list Row) :
  isWrite (fst (upsertPlan email st subscriptionId rows)) = true.
Proof.
  unfold upsertPlan.
  by destruct (firstRow _ (getDataRows rows) 0) as [[i row] |].
Qed.

(** The planned write of [upsertPaidUser] touches one row position, drops
    no row and keeps every column A. *)
Lemma upsertPlan_frame (email st subscriptionId : string) (rows : list Row) :
  let rows' := snd (upsertPlan email st subscriptionId rows) in
  length rows <= length rows' <= S (length rows)
  /\ (exists k0, forall k, k <> k0 -> rows' !! k = rows !! k)
  /\ (forall k row, rows !! k = Some row ->
        exists row', rows' !! k = Some row' /\ colA row' = colA row).
Proof.
  unfold upsertPlan.
  destruct (firstRow _ (getDataRows rows) 0) as [[i row0] |] eqn:Hfind; cbn [snd].
  - apply firstRow_lookup in Hfind as (_ & Hi & _).
    rewrite Nat.sub_0_r, getDataRows_lookup in Hi.
    split; [| split].
    + rewrite length_insert. lia.
    + exists (headerOffset rows + i). intros k Hk.
      by rewrite list_lookup_insert_ne by lia.
    + intros k row Hk. destruct (decide (k = headerOffset rows + i)) as [-> | Hne].
      * rewrite Hi in Hk. injection Hk as <-.
        eexists. split; [apply list_lookup_insert_eq; by eapply lookup_lt_Some |].
        apply colA_writeCells.
      * exists row. by rewrite list_lookup_insert_ne by lia.
  - split; [| split].
    + rewrite length_app. cbn [length]. lia.
    + exists (length rows). intros k Hk.
      destruct (decide (k < length rows)) as [Hlt | Hge].
      * by rewrite lookup_app_l.
      * rewrite (lookup_ge_None_2 rows k) by lia.
        apply lookup_ge_None_2. rewrite length_app. cbn [length]. lia.
    + intros k row Hk. exists row. split; [| reflexivity].
      rewrite lookup_app_l; [exact Hk | by eapply lookup_lt_Some].
Qed.

(** The four ways a run of [upsertPaidUser] can go. *)
Lemma upsertPaidUser_outcomes (email st subscriptionId : string) (w : World) :
  let c := fst (upsertPlan email st subscriptionId (sheet w)) in
  let rows' := snd (upsertPlan email st subscriptionId (sheet w)) in
  (exists message, upsertPaidUser email st subscriptionId w = (Throws message, w))
  \/ (exists message,
        upsertPaidUser email st subscriptionId w
        = (Throws message, Sheets.logged (ValuesGet ColsAC) w))
  \/ (exists message,
        upsertPaidUser email st subscriptionId w
        = (Throws message, Sheets.logged c (Sheets.logged (ValuesGet ColsAC) w)))
  \/ upsertPaidUser email st subscriptionId w = (Returns tt, wrote c rows' w).
Proof.
  intros c rows'. destruct (configured (env w)) eqn:Hc.
  - rewrite (upsertPaidUser_run email st subscriptionId w Hc).
    destruct (faults w) as [| [|] [| [|] fs]]; cbn [tail]; eauto 6.
  - left. destruct (getSheetsClient_unconfigured w Hc) as [message Hthrow].
    exists message. unfold upsertPaidUser. unfold bind at 1. by rewrite Hthrow.
Qed.

(** The planned write of [updateStatusBySubscriptionId] rewrites one row
    in place and keeps the columns A and C of every row. *)
Lemma statusPlan_frame (subscriptionId st : string) (rows : list Row) (c : Call)
    (rows' : list Row) :
  statusPlan subscriptionId st rows = Some (c, rows') ->
  isWrite c = true
  /\ length rows' = length rows
  /\ (exists k0, forall k, k <> k0 -> rows' !! k = rows !! k)
  /\ (forall k row, rows !! k = Some row ->
        exists row', rows' !! k = Some row'
                     /\ colA row' = colA row /\ colC row' = colC row).
Proof.
  unfold statusPlan.
  destruct (firstRow _ (getDataRows rows) 0) as [[i row0] |] eqn:Hfind;
    [| discriminate].
  intros [= <- <-].
  apply firstRow_lookup in Hfind as (_ & Hi & _).
  rewrite Nat.sub_0_r, getDataRows_lookup in Hi.
  split_and!.
  - reflexivity.
  - apply length_insert.
  - exists (headerOffset rows + i). intros k Hk.
    by rewrite list_lookup_insert_ne by lia.
  - intros k row Hk. destruct (decide (k = headerOffset rows + i)) as [-> | Hne].
    + rewrite Hi in Hk. injection Hk as <-.
      exists (Sheets.writeCells 1 [st] row0).
      split_and!; [apply list_lookup_insert_eq; by eapply lookup_lt_Some | |].
      * apply colA_writeCells.
      * apply colC_writeB.
    + exists row. by rewrite list_lookup_insert_ne by lia.
Qed.

(** The ways a run of [updateStatusBySubscriptionId] can go. *)
Lemma updateStatus_outcomes (subscriptionId st : string) (w : World) :
  updateStatusBySubscriptionId subscriptionId st w = (Returns tt, w)
  \/ (exists message,
        updateStatusBySubscriptionId subscriptionId st w = (Throws message, w))
  \/ (exists r,
        updateStatusBySubscriptionId subscriptionId st w
        = (r, Sheets.logged (ValuesGet ColsAC) w)
        /\ (r = Returns tt -> statusPlan subscriptionId st (sheet w) = None))
  \/ (exists c rows',
        statusPlan subscriptionId st (sheet w) = Some (c, rows')
        /\ ((exists message,
               updateStatusBySubscriptionId subscriptionId st w
               = (Throws message, Sheets.logged c (Sheets.logged (ValuesGet ColsAC) w)))
            \/ updateStatusBySubscriptionId subscriptionId st w
               = (Returns tt, wrote c rows' w))).
Proof.
  destruct (String.eqb_spec subscriptionId "") as [-> | Hs].
  { left. reflexivity. }
  destruct (String.eqb_spec st "") as [-> | Hst].
  { left. unfold updateStatusBySubscriptionId. by rewrite orb_true_r. }
  right. destruct (configured (env w)) eqn:Hc.
  - right. rewrite (updateStatus_run subscriptionId st w Hc Hs Hst).
    destruct (statusPlan subscriptionId st (sheet w)) as [[c rows'] |] eqn:Hplan.
    + destruct (faults w) as [| [|] [| [|] fs]]; cbn [tail];
        try (right; exists c, rows'; split; [reflexivity |]; eauto; fail).
      all: left; eexists; split; [reflexivity | discriminate].
    + left. destruct (faults w) as [| [|] fs]; eexists; split;
        reflexivity || discriminate || auto.
  - left. destruct (getSheetsClient_unconfigured w Hc) as [message Hthrow].
    exists message. unfold updateStatusBySubscriptionId.
    rewrite (eqb_empty_false _ Hs), (eqb_empty_false _ Hst). cbn [orb].
    unfold bind at 1. by rewrite Hthrow.
Qed.

End Writes.

Lemma upsertPlan_request (email st sub : string) (rows : list Row) :
  upsertRequest email st sub rows (fst (upsertPlan email st sub rows)).
Proof.
  unfold upsertPlan, upsertRequest.
  destruct (firstRow _ (getDataRows rows) 0) as [[i row] |] eqn:Hfind; cbn [fst];
    [right | by left].
  apply firstRow_lookup in Hfind as (_ & Hi & _).
  rewrite Nat.sub_0_r, getDataRows_lookup in Hi. apply lookup_lt_Some in Hi.
  exists (headerOffset rows + i + 1). split_and!; [reflexivity | lia | lia].
Qed.

(** X6: the requests of [upsertPaidUser].  In whatever world, it issues
    nothing, or the read of columns A to C, or that read followed by one
    write; when it returns it has issued the read and the write.  The
    write is the append of the row [[email, status, trimmed id]] or the
    update of columns B to C, with [[status, trimmed id]], of a sheet row
    that lies below the header and inside the table as read. *)
Theorem upsert_reads_then_writes_once (email st sub : string) (w : World) :
  (calls (snd (upsertPaidUser email st sub w)) = calls w
   \/ calls (snd (upsertPaidUser email st sub w)) = calls w ++ [ValuesGet ColsAC]
   \/ exists c, upsertRequest email st sub (sheet w) c
                /\ calls (snd (upsertPaidUser email st sub w))
                   = calls w ++ [ValuesGet ColsAC; c])
  /\ (fst (upsertPaidUser email st sub w) = Returns tt ->
      exists c, upsertRequest email st sub (sheet w) c
                /\ calls (snd (upsertPaidUser email st sub w))
                   = calls w ++ [ValuesGet ColsAC; c]).
Proof.
  assert (exists c, upsertRequest email st sub (sheet w) c
                    /\ calls (Sheets.logged (fst (upsertPlan email st sub (sheet w)))
                                (Sheets.logged (ValuesGet ColsAC) w))
                       = calls w ++ [ValuesGet ColsAC; c]) as Hboth.
  { exists (fst (upsertPlan email st sub (sheet w))).
    split; [apply upsertPlan_request |].
    cbn [Sheets.logged calls]. by rewrite <- app_assoc. }
  destruct (upsertPaidUser_outcomes email st sub w)
    as [[m ->] | [[m ->] | [[m ->] | ->]]];
    cbn [fst snd wrote Sheets.withSheet calls];
    (split; [| intros Hret; try discriminate Hret]); auto.
Qed.

Lemma upsert_reads_then_writes_once_witness :
  fst (upsertPaidUser "C@D.org" "active" "sub_8" (store headedSheet)) = Returns tt
  /\ exists c,
       upsertRequest "C@D.org" "active" "sub_8" (sheet (store headedSheet)) c
       /\ calls (snd (upsertPaidUser "C@D.org" "active" "sub_8" (store headedSheet)))
          = calls (store headedSheet) ++ [ValuesGet ColsAC; c].
Proof.
  assert (fst (upsertPaidUser "C@D.org" "active" "sub_8" (store headedSheet))
          = Returns tt) as Hret by (vm_compute; reflexivity).
  split; [exact Hret |].
  exact (proj2 (upsert_reads_then_writes_once "C@D.org" "active" "sub_8"
                  (store headedSheet)) Hret).
Defined.

(** X7: whatever the arguments and the world, [upsertPaidUser] drops no
    row and adds at most one, changes at most one row position, and leaves
    column A of every row it found as the code reads it. *)
Theorem upsert_keeps_rows_and_emails (email st sub : string) (w : World) :
  length (sheet w) <= length (sheet (snd (upsertPaidUser email st sub w)))
  /\ length (sheet (snd (upsertPaidUser email st sub w))) <= S (length (sheet w))
  /\ (exists k0, forall k,
        k <> k0 -> sheet (snd (upsertPaidUser email st sub w)) !! k = sheet w !! k)
  /\ (forall k row,
        sheet w !! k = Some row ->
        exists row', sheet (snd (upsertPaidUser email st sub w)) !! k = Some row'
                     /\ colA row' = colA row).
Proof.
  destruct (upsertPlan_frame email st sub (sheet w)) as ([Hle Hge] & Hone & HcolA).
  destruct (upsertPaidUser_outcomes email st sub w)
    as [[m ->] | [[m ->] | [[m ->] | ->]]];
    cbn [snd wrote Sheets.withSheet Sheets.logged sheet];
    try (split_and!; [lia | lia | by exists 0 | by eauto]).
  by split_and!.
Qed.

(** X8: whatever the arguments and the world,
    [updateStatusBySubscriptionId] keeps the number of rows, changes at
    most one row position, and leaves the columns A and C of every row as
    the code reads them. *)
Theorem status_update_frame (sub st : string) (w : World) :
  length (sheet (snd (updateStatusBySubscriptionId sub st w))) = length (sheet w)
  /\ (exists k0, forall k,
        k <> k0 ->
        sheet (snd (updateStatusBySubscriptionId sub st w)) !! k = sheet w !! k)
  /\ (forall k row,
        sheet w !! k = Some row ->
        exists row',
          sheet (snd (updateStatusBySubscriptionId sub st w)) !! k = Some row'
          /\ colA row' = colA row /\ colC row' = colC row).
Proof.
  destruct (updateStatus_outcomes sub st w)
    as [-> | [[m ->] | [(r & -> & _) | (c & rows' & Hplan & [[m ->] | ->])]]];
    cbn [fst snd wrote Sheets.withSheet Sheets.logged sheet];
    try (split_and!; [reflexivity | by exists 0 | by eauto]).
  destruct (statusPlan_frame sub st (sheet w) c rows' Hplan)
    as (_ & Hlen & Hone & Hcols).
  split_and!; [exact Hlen | exact Hone | exact Hcols].
Qed.

(** X9: in a store that answers, [updateStatusBySubscriptionId] applied
    twice in succession leaves the same sheet as applied once, for every
    subscription id, status and sheet. *)
Theorem status_update_idempotent (sub st : string) (w : World) :
  healthy w ->
  sheet (snd (updateStatusBySubscriptionId sub st
                (snd (updateStatusBySubscriptionId sub st w))))
  = sheet (snd (updateStatusBySubscriptionId sub st w)).
Proof.
  intros Hw.
  destruct (String.eqb_spec sub "") as [-> | Hs]; [reflexivity |].
  destruct (String.eqb_spec st "") as [-> | Hst].
  { unfold updateStatusBySubscriptionId. by rewrite !orb_true_r. }
  rewrite (updateStatusBySubscriptionId_healthy sub st w Hw Hs Hst). cbn [snd].
  destruct (list_find _ (getDataRows (sheet w))) as [[i row] |] eqn:Hfind.
  - rewrite updateStatusBySubscriptionId_healthy;
      [| by apply wrote_healthy | exact Hs | exact Hst].
    cbn [snd wrote Sheets.withSheet Sheets.logged sheet].
    pose proof Hfind as (Hi & Hmatch & Hfirst)%list_find_Some.
    destruct (getDataRows_write (sheet w) i row [st] Hi) as [-> ->].
    assert (list_find (subscriptionMatches (JS.trim sub))
              (<[i := Sheets.writeCells 1 [st] row]> (getDataRows (sheet w)))
            = Some (i, Sheets.writeCells 1 [st] row)) as ->.
    { apply list_find_Some. split_and!.
      - apply list_lookup_insert_eq. by eapply lookup_lt_Some.
      - unfold subscriptionMatches in *. by rewrite colC_writeB.
      - intros j y Hj Hlt. rewrite list_lookup_insert_ne in Hj by lia. eauto. }
    cbn [wrote Sheets.withSheet sheet]. rewrite writeCells_again.
    by rewrite list_insert_insert_eq.
  - rewrite updateStatusBySubscriptionId_healthy;
      [| by apply logged_healthy | exact Hs | exact Hst].
    cbn [snd Sheets.logged sheet]. by rewrite Hfind.
Qed.

Lemma status_update_idempotent_witness :
  healthy (store headedSheet)
  /\ sheet (snd (updateStatusBySubscriptionId "sub_7" "past_due"
                   (snd (updateStatusBySubscriptionId "sub_7" "past_due"
                           (store headedSheet)))))
     = sheet (snd (updateStatusBySubscriptionId "sub_7" "past_due" (store headedSheet))).
Proof.
  assert (healthy (store headedSheet)) as Hw by (split; reflexivity).
  split; [exact Hw |].
  exact (status_update_idempotent "sub_7" "past_due" (store headedSheet) Hw).
Defined.

(** X10: without the spreadsheet id or usable credentials the three store
    functions fail closed: each throws before any request is issued and
    leaves the world as it was. *)
Theorem unconfigured_store_fails_closed (email st sub : string) (w : World) :
  configured (env w) = false ->
  (JS.toLowerCase (JS.trim email) <> "" ->
   exists message, checkPaidUserEmail email w = (Throws message, w))
  /\ (exists message, upsertPaidUser email st sub w = (Throws message, w))
  /\ (sub <> "" -> st <> "" ->
      exists message, updateStatusBySubscriptionId sub st w = (Throws message, w)).
Proof.
  intros Hc. destruct (getSheetsClient_unconfigured w Hc) as [message Hthrow].
  split_and!.
  - intros Hn. exists message. unfold checkPaidUserEmail.
    rewrite (eqb_empty_false _ Hn). unfold bind at 1. by rewrite Hthrow.
  - exists message. unfold upsertPaidUser. unfold bind at 1. by rewrite Hthrow.
  - intros Hs Hst. exists message. unfold updateStatusBySubscriptionId.
    rewrite (eqb_empty_false _ Hs), (eqb_empty_false _ Hst). cbn [orb].
    unfold bind at 1. by rewrite Hthrow.
Qed.

Lemma unconfigured_store_fails_closed_witness :
  configured (env (unconfiguredStore headedSheet)) = false
  /\ (exists message,
        checkPaidUserEmail "a@b.com" (unconfiguredStore headedSheet)
        = (Throws message, unconfiguredStore headedSheet))
  /\ (exists message,
        upsertPaidUser "a@b.com" "active" "sub_1" (unconfiguredStore headedSheet)
        = (Throws message, unconfiguredStore headedSheet))
  /\ (exists message,
        updateStatusBySubscriptionId "sub_0" "canceled" (unconfiguredStore headedSheet)
        = (Throws message, unconfiguredStore headedSheet)).
Proof.
  assert (configured (env (unconfiguredStore headedSheet)) = false) as Hc
    by reflexivity.
  destruct (unconfigured_store_fails_closed "a@b.com" "active" "sub_1"
              (unconfiguredStore headedSheet) Hc) as (Hcheck & Hupsert & _).
  destruct (unconfigured_store_fails_closed "a@b.com" "canceled" "sub_0"
              (unconfiguredStore headedSheet) Hc) as (_ & _ & Hstatus).
  split_and!; [exact Hc | | exact Hupsert |].
  - apply Hcheck. vm_compute. discriminate.
  - apply Hstatus; discriminate.
Defined.

(** ** The webhook events *)

Section Events.

Lemma updateStatus_healthy_returns (sub st : string) (w : World) :
  healthy w -> fst (updateStatusBySubscriptionId sub st w) = Returns tt.
Proof.
  intros Hw.
  destruct (String.eqb_spec sub "") as [-> | Hs]; [reflexivity |].
  destruct (String.eqb_spec st "") as [-> | Hst].
  { unfold updateStatusBySubscriptionId. by rewrite orb_true_r. }
  by rewrite (updateStatusBySubscriptionId_healthy sub st w Hw Hs Hst).
Qed.

(** The two shapes of [try { await c } catch { 500 }] followed by the
    acknowledgement. *)
Lemma tryCatch_ack {A} (c : M A) (message : string) (w : World) :
  (exists a, fst (c w) = Returns a
             /\ tryCatch c (fun _ => json JsonReceived) (send 500 message) w
                = ({| code := 200; body := JsonReceived |}, snd (c w)))
  \/ (exists e, fst (c w) = Throws e
                /\ tryCatch c (fun _ => json JsonReceived) (send 500 message) w
                   = ({| code := 500; body := Text message |}, snd (c w))).
Proof.
  unfold tryCatch. destruct (c w) as [[a | e] w']; [left | right]; eauto.
Qed.

(** A checkout session that yields no usable e-mail is acknowledged and
    nothing else happens. *)
Lemma onEvent_checkout_blank (session : Session.t) (w : World) :
  JS.toLowerCase (JS.trim (JS.orEmpty
     (getGoogleEmailFromSession (googleAccountFieldKey (env w)) session))) = "" ->
  onEvent (CheckoutSessionCompleted (Some session)) w
  = ({| code := 200; body := JsonReceived |}, w).
Proof.
  intros Hblank. cbn [onEvent].
  destruct (JS.truthy _); cbn [negb]; [| reflexivity].
  by rewrite Hblank.
Qed.

End Events.

(** X11: in a store that answers, every verified event is acknowledged
    with 200 [{ received: true }]: the events that are mapped to a write,
    the ones that find no row, and the ones that are ignored. *)
Theorem healthy_store_acknowledges_every_event (event : Event) (w : World) :
  healthy w ->
  fst (onEvent event w) = {| code := 200; body := JsonReceived |}.
Proof.
  intros Hw.
  destruct event as [[session |] | [subscription |] | [subscription |] | | type];
    cbn [onEvent]; try reflexivity.
  - destruct (negb (JS.truthy _)); [reflexivity |].
    destruct (String.length _ =? 0)%nat; [reflexivity |].
    destruct (tryCatch_ack (upsertPaidUser
                (JS.toLowerCase (JS.trim (JS.orEmpty
                   (getGoogleEmailFromSession (googleAccountFieldKey (env w)) session))))
                STATUS_ACTIVE (JS.orEmpty (Session.subscription session)))
                "Append failed" w) as [(a & _ & ->) | (e & He & _)]; [reflexivity |].
    by rewrite (upsertPaidUser_healthy _ _ _ w Hw) in He.
  - destruct (negb (JS.truthy _)); [reflexivity |].
    destruct (tryCatch_ack (updateStatusBySubscriptionId
                (JS.orEmpty (Subscription.id subscription))
                (JS.orEmpty (Subscription.status subscription)))
                "Update failed" w) as [(a & _ & ->) | (e & He & _)]; [reflexivity |].
    by rewrite (updateStatus_healthy_returns _ _ w Hw) in He.
  - destruct (negb (JS.truthy _)); [reflexivity |].
    destruct (tryCatch_ack (updateStatusBySubscriptionId
                (JS.orEmpty (Subscription.id subscription)) "canceled")
                "Update failed" w) as [(a & _ & ->) | (e & He & _)]; [reflexivity |].
    by rewrite (updateStatus_healthy_returns _ _ w Hw) in He.
Qed.

Lemma healthy_store_acknowledges_every_event_witness :
  healthy (store headedSheet)
  /\ fst (onEvent (CustomerSubscriptionDeleted
                     (Some {| Subscription.id := Some "sub_404";
                              Subscription.status := None |}))
            (store headedSheet))
     = {| code := 200; body := JsonReceived |}.
Proof.
  assert (healthy (store headedSheet)) as Hw by (split; reflexivity).
  split; [exact Hw |].
  exact (healthy_store_acknowledges_every_event _ (store headedSheet) Hw).
Defined.

(** X12: the answers to a verified event.  Whatever the event and the
    world, the handler answers 200 [{ received: true }], or 500
    "Append failed", which only a checkout session gets, or 500
    "Update failed", which only a subscription event gets; and it answers
    500 only when the store is not configured or a request fails. *)
Theorem event_answers (event : Event) (w : World) :
  fst (onEvent event w) = {| code := 200; body := JsonReceived |}
  \/ (fst (onEvent event w) = {| code := 500; body := Text "Append failed" |}
      /\ (exists session, event = CheckoutSessionCompleted (Some session))
      /\ ~ healthy w)
  \/ (fst (onEvent event w) = {| code := 500; body := Text "Update failed" |}
      /\ (exists subscription,
            event = CustomerSubscriptionUpdated (Some subscription)
            \/ event = CustomerSubscriptionDeleted (Some subscription))
      /\ ~ healthy w).
Proof.
  destruct event as [[session |] | [subscription |] | [subscription |] | | type];
    cbn [onEvent]; try (by left).
  - destruct (negb (JS.truthy _)); [by left |].
    destruct (String.length _ =? 0)%nat; [by left |].
    destruct (tryCatch_ack (upsertPaidUser
                (JS.toLowerCase (JS.trim (JS.orEmpty
                   (getGoogleEmailFromSession (googleAccountFieldKey (env w)) session))))
                STATUS_ACTIVE (JS.orEmpty (Session.subscription session)))
                "Append failed" w) as [(a & _ & ->) | (e & He & ->)]; [by left |].
    right; left. split_and!; [reflexivity | by eexists |].
    intros Hw. by rewrite (upsertPaidUser_healthy _ _ _ w Hw) in He.
  - destruct (negb (JS.truthy _)); [by left |].
    destruct (tryCatch_ack (updateStatusBySubscriptionId
                (JS.orEmpty (Subscription.id subscription))
                (JS.orEmpty (Subscription.status subscription)))
                "Update failed" w) as [(a & _ & ->) | (e & He & ->)]; [by left |].
    right; right. split_and!; [reflexivity | eexists; by left |].
    intros Hw. by rewrite (updateStatus_healthy_returns _ _ w Hw) in He.
  - destruct (negb (JS.truthy _)); [by left |].
    destruct (tryCatch_ack (updateStatusBySubscriptionId
                (JS.orEmpty (Subscription.id subscription)) "canceled")
                "Update failed" w) as [(a & _ & ->) | (e & He & ->)]; [by left |].
    right; right. split_and!; [reflexivity | eexists; by right |].
    intros Hw. by rewrite (updateStatus_healthy_returns _ _ w Hw) in He.
Qed.

(** X13: the events that carry nothing to reconcile leave the world
    untouched, store configured or not: [customer.deleted], every type
    other than the four handled ones, an event without object, a
    subscription event without id, and a checkout session whose resolved
    e-mail is missing or blank. *)
Theorem unmappable_events_touch_nothing (w : World) :
  let ack := ({| code := 200; body := JsonReceived |}, w) in
  onEvent CustomerDeleted w = ack
  /\ (forall type, onEvent (OtherEvent type) w = ack)
  /\ onEvent (CheckoutSessionCompleted None) w = ack
  /\ onEvent (CustomerSubscriptionUpdated None) w = ack
  /\ onEvent (CustomerSubscriptionDeleted None) w = ack
  /\ (forall subscription,
        JS.truthy (Subscription.id subscription) = false ->
        onEvent (CustomerSubscriptionUpdated (Some subscription)) w = ack
        /\ onEvent (CustomerSubscriptionDeleted (Some subscription)) w = ack)
  /\ (forall session,
        JS.toLowerCase (JS.trim (JS.orEmpty
          (getGoogleEmailFromSession (googleAccountFieldKey (env w)) session))) = "" ->
        onEvent (CheckoutSessionCompleted (Some session)) w = ack).
Proof.
  cbn zeta. split_and!; try reflexivity.
  - intros subscription Hid. cbn [onEvent]. by rewrite Hid.
  - intros session Hblank. by apply onEvent_checkout_blank.
Qed.

Lemma unmappable_events_touch_nothing_witness :
  onEvent (CustomerSubscriptionUpdated
             (Some {| Subscription.id := Some ""; Subscription.status := Some "active" |}))
    (outage headedSheet)
  = ({| code := 200; body := JsonReceived |}, outage headedSheet)
  /\ onEvent (CheckoutSessionCompleted
                (Some {| Session.custom_fields := None;
                         Session.customer_email := Some "   ";
                         Session.customer_details := None;
                         Session.subscription := Some "sub_1" |}))
       (outage headedSheet)
     = ({| code := 200; body := JsonReceived |}, outage headedSheet).
Proof.
  destruct (unmappable_events_touch_nothing (outage headedSheet))
    as (_ & _ & _ & _ & _ & Hsub & Hsession).
  split.
  - apply (Hsub {| Subscription.id := Some ""; Subscription.status := Some "active" |}).
    reflexivity.
  - apply Hsession. vm_compute. reflexivity.
Defined.

(** X14: in a store that answers, a subscription event whose id is held by
    a data row rewrites the status cell of the first such row and nothing
    else: [customer.subscription.updated] writes the payload status as it
    is, [customer.subscription.deleted] writes "canceled" whatever status
    the payload carries. *)
Theorem subscription_events_write_status (w : World) (sid : string) (i : nat) (row : Row) :
  healthy w ->
  sid <> "" ->
  firstRow (subscriptionTest (JS.trim sid)) (getDataRows (sheet w)) 0 = Some (i, row) ->
  (forall payloadStatus,
     sheet (snd (onEvent (CustomerSubscriptionDeleted
                            (Some {| Subscription.id := Some sid;
                                     Subscription.status := payloadStatus |})) w))
     = <[headerOffset (sheet w) + i := Sheets.writeCells 1 ["canceled"] row]> (sheet w))
  /\ (forall st,
        st <> "" ->
        sheet (snd (onEvent (CustomerSubscriptionUpdated
                               (Some {| Subscription.id := Some sid;
                                        Subscription.status := Some st |})) w))
        = <[headerOffset (sheet w) + i := Sheets.writeCells 1 [st] row]> (sheet w)).
Proof.
  intros Hw Hsid Hfind. rewrite firstRow_subscription in Hfind.
  assert (forall st, st <> "" ->
            updateStatusBySubscriptionId sid st w
            = (Returns tt,
               wrote (ValuesUpdate (CellB (headerOffset (sheet w) + i + 1)) [[st]])
                 (<[headerOffset (sheet w) + i := Sheets.writeCells 1 [st] row]> (sheet w))
                 w)) as Hrun.
  { intros st Hst.
    rewrite (updateStatusBySubscriptionId_healthy sid st w Hw Hsid Hst).
    by rewrite Hfind. }
  split.
  - intros payloadStatus.
    cbn [onEvent Subscription.id Subscription.status JS.truthy JS.orEmpty].
    rewrite (eqb_empty_false _ Hsid). cbn [negb]. unfold tryCatch.
    by rewrite Hrun.
  - intros st Hst.
    cbn [onEvent Subscription.id Subscription.status JS.truthy JS.orEmpty].
    rewrite (eqb_empty_false _ Hsid). cbn [negb]. unfold tryCatch.
    by rewrite (Hrun st Hst).
Qed.

Lemma subscription_events_write_status_witness :
  healthy (store headedSheet)
  /\ sheet (snd (onEvent (CustomerSubscriptionDeleted
                            (Some {| Subscription.id := Some "sub_7";
                                     Subscription.status := Some "active" |}))
                   (store headedSheet)))
     = [ ["Email"; "Status"; "Subscription"];
         ["a@b.com"; "canceled"; "sub_0"];
         ["c@d.org"; "canceled"; "sub_7"] ].
Proof.
  assert (healthy (store headedSheet)) as Hw by (split; reflexivity).
  split; [exact Hw |].
  refine (proj1 (subscription_events_write_status (store headedSheet) "sub_7" 1
                   ["c@d.org"; "active"; "sub_7"] Hw _ eq_refl) (Some "active")).
  discriminate.
Defined.

(** ** From activation to status changes to the query *)

Section Lifecycle.

Lemma colC_writeCells (b c : string) (row : Row) :
  colC (Sheets.writeCells 1 [b; c] row) = JS.trim c.
Proof. unfold colC. cbn. apply trimmedOrEmpty_Some. Qed.

(** The row that [upsertPaidUser] leaves behind, with the rows around it. *)
Lemma upsertPaidUser_row_frame (email st subscriptionId : string) (w : World) :
  healthy w ->
  sheet w <> [] \/ JS.includes "email" (JS.toLowerCase email) = false ->
  healthy (snd (upsertPaidUser email st subscriptionId w))
  /\ exists (k : nat) (row1 : Row),
       list_find (emailMatches (JS.toLowerCase (JS.trim email)))
         (getDataRows (sheet (snd (upsertPaidUser email st subscriptionId w))))
       = Some (k, row1)
       /\ Sheets.writeCells 1 [st; trimmedId subscriptionId] row1 = row1
       /\ (forall j y,
             getDataRows (sheet (snd (upsertPaidUser email st subscriptionId w))) !! j
             = Some y ->
             j <> k -> getDataRows (sheet w) !! j = Some y).
Proof.
  intros Hw Hsafe.
  destruct (upsertPaidUser_row email st subscriptionId w Hw Hsafe)
    as (Hw1 & k & row1 & Hfind & Hrow1).
  split; [exact Hw1 |]. exists k, row1. split_and!; [exact Hfind | exact Hrow1 |].
  pose proof Hfind as (Hk & _ & _)%list_find_Some.
  revert Hfind Hk. rewrite (upsertPaidUser_healthy _ _ _ w Hw). cbn [snd].
  destruct (list_find _ (getDataRows (sheet w))) as [[i row] |] eqn:Hold;
    cbn [wrote Sheets.withSheet sheet].
  - pose proof Hold as (Hi & _ & _)%list_find_Some.
    destruct (getDataRows_write (sheet w) i row [st; trimmedId subscriptionId] Hi)
      as [-> _].
    rewrite (find_email_insert _ _ _ row _ Hold (colA_writeCells _ _ _)).
    intros [= <- <-] _ j y Hj Hne. by rewrite list_lookup_insert_ne in Hj by lia.
  - rewrite getDataRows_append_row by exact Hsafe.
    intros Hfind Hk j y Hj Hne.
    apply lookup_app_Some in Hj as [Hj | [Hge Hj]]; [exact Hj |].
    apply list_find_None in Hold.
    apply lookup_app_Some in Hk as [Hk | [Hgek Hk]].
    + apply list_find_Some in Hfind as (_ & Hmatch & _).
      by destruct (Forall_lookup_1 _ _ _ _ Hold Hk).
    + apply list_lookup_singleton_Some in Hk as [Hk0 _].
      apply list_lookup_singleton_Some in Hj as [Hj0 _]. lia.
Qed.

End Lifecycle.

(** X15: activation, then a status update for the same subscription, then
    the query.  In a store that answers, for an e-mail that is not blank
    and a subscription id that no data row holds yet, [upsertPaidUser]
    followed by [updateStatusBySubscriptionId] with a status that is not
    blank makes [checkPaidUserEmail] report that status, trimmed, and
    [paid] only if it reads "active" (same proviso on the header as for
    activation alone). *)
Theorem activate_update_query (w : World) (E sub st : string) :
  healthy w ->
  JS.toLowerCase (JS.trim E) <> "" ->
  sheet w <> [] \/ JS.includes "email" (JS.toLowerCase E) = false ->
  sub <> "" ->
  JS.trim st <> "" ->
  Forall (fun row => ~ subscriptionMatches (JS.trim sub) row) (getDataRows (sheet w)) ->
  fst (checkPaidUserEmail E
         (snd (updateStatusBySubscriptionId sub st
                 (snd (upsertPaidUser E STATUS_ACTIVE sub w)))))
  = Returns {| paid := JS.toLowerCase (JS.trim st) =? "active";
               status := Some (JS.trim st) |}.
Proof.
  intros Hw Hn Hsafe Hsub Hst Hfresh.
  assert (st <> "") as Hst' by (intros ->; by apply Hst).
  destruct (upsertPaidUser_row_frame E STATUS_ACTIVE sub w Hw Hsafe)
    as (Hw1 & k & row1 & Hfind & Hrow1 & Hframe).
  pose proof Hfind as (Hk & _ & _)%list_find_Some.
  assert (list_find (subscriptionMatches (JS.trim sub))
            (getDataRows (sheet (snd (upsertPaidUser E STATUS_ACTIVE sub w))))
          = Some (k, row1)) as Hsubfind.
  { apply list_find_Some. split_and!; [exact Hk | |].
    - unfold subscriptionMatches. rewrite <- Hrow1, colC_writeCells.
      by rewrite trimmedId_trim, trim_idempotent.
    - intros j y Hj Hlt Hmatch.
      assert (getDataRows (sheet w) !! j = Some y) as Hold by (apply Hframe; [done | lia]).
      by destruct (Forall_lookup_1 _ _ _ _ Hfresh Hold). }
  rewrite (updateStatusBySubscriptionId_healthy sub st _ Hw1 Hsub Hst').
  rewrite Hsubfind. cbn [snd].
  rewrite checkPaidUserEmail_readable;
    [| by apply healthy_readable, wrote_healthy | exact Hn].
  cbn [fst wrote Sheets.withSheet sheet]. rewrite verdict_find.
  destruct (getDataRows_write _ k row1 [st] Hk) as [-> _].
  rewrite (find_email_insert _ _ _ row1 _ Hfind (colA_writeCells _ _ _)).
  unfold rowVerdict. rewrite colB_writeCells, !(eqb_empty_false _ Hst). reflexivity.
Qed.

Lemma activate_update_query_witness :
  healthy (store headedSheet)
  /\ fst (checkPaidUserEmail "New@User.io"
            (snd (updateStatusBySubscriptionId "sub_9" "past_due"
                    (snd (upsertPaidUser "New@User.io" STATUS_ACTIVE "sub_9"
                            (store headedSheet))))))
     = Returns {| paid := false; status := Some "past_due" |}.
Proof.
  assert (healthy (store headedSheet)) as Hw by (split; reflexivity).
  split; [exact Hw |].
  refine (activate_update_query (store headedSheet) "New@User.io" "sub_9" "past_due"
            Hw _ _ _ _ _).
  - vm_compute. discriminate.
  - left. discriminate.
  - discriminate.
  - vm_compute. discriminate.
  - vm_compute. repeat constructor; discriminate.
Defined.

(** X16: from the webhook to the query.  In a store that answers, once a
    [checkout.session.completed] event whose session resolves to an e-mail
    that is not blank has been handled, [GET /check] reports
    [{ paid: true, status: "active" }] for every spelling of that e-mail
    that differs in case or surrounding white space only (sheet not empty,
    or the e-mail free of "email"). *)
Theorem checkout_then_check_any_spelling (w : World) (session : Session.t)
    (e q : string) :
  healthy w ->
  getGoogleEmailFromSession (googleAccountFieldKey (env w)) session = Some e ->
  JS.toLowerCase (JS.trim e) <> "" ->
  sheet w <> [] \/ JS.includes "email" (JS.toLowerCase (JS.trim e)) = false ->
  JS.toLowerCase (JS.trim q) = JS.toLowerCase (JS.trim e) ->
  fst (getCheck (Some q) (snd (onEvent (CheckoutSessionCompleted (Some session)) w)))
  = {| code := 200; body := JsonCheck true (Some "active") |}.
Proof.
  intros Hw He Hn Hsafe Hq.
  assert (e <> "") as He' by (intros ->; by apply Hn).
  assert (JS.trim q <> "") as Hq'.
  { intros Hblank. apply Hn. by rewrite <- Hq, Hblank. }
  assert (sheet w <> []
          \/ JS.includes "email" (JS.toLowerCase (JS.toLowerCase (JS.trim e))) = false)
    as Hsafe' by by rewrite toLowerCase_idempotent.
  destruct (upsertPaidUser_row (JS.toLowerCase (JS.trim e)) STATUS_ACTIVE
              (JS.orEmpty (Session.subscription session)) w Hw Hsafe')
    as (Hw1 & k & row1 & Hfind & Hrow1).
  rewrite normalize_idempotent in Hfind.
  assert (snd (onEvent (CheckoutSessionCompleted (Some session)) w)
          = snd (upsertPaidUser (JS.toLowerCase (JS.trim e)) STATUS_ACTIVE
                   (JS.orEmpty (Session.subscription session)) w)) as ->.
  { cbn [onEvent]. rewrite He. cbn [JS.truthy JS.orEmpty].
    rewrite (eqb_empty_false _ He'). cbn [negb].
    destruct (JS.toLowerCase (JS.trim e)) as [| c n] eqn:Hnorm; [done |].
    cbn [String.length Nat.eqb].
    by destruct (tryCatch_ack (upsertPaidUser (String c n) STATUS_ACTIVE
                   (JS.orEmpty (Session.subscription session))) "Append failed" w)
      as [(a & _ & ->) | (m & _ & ->)]. }
  unfold getCheck. rewrite trimmedOrEmpty_Some, (eqb_empty_false _ Hq').
  unfold tryCatch.
  rewrite checkPaidUserEmail_readable;
    [| by apply healthy_readable | by rewrite trim_idempotent, Hq].
  rewrite trim_idempotent, Hq, verdict_find, Hfind.
  unfold rowVerdict. rewrite <- Hrow1, colB_writeCells. reflexivity.
Qed.

Lemma checkout_then_check_any_spelling_witness :
  healthy (store headedSheet)
  /\ fst (getCheck (Some "  PRO ")
            (snd (onEvent (CheckoutSessionCompleted (Some dropdownFirstSession))
                    (store headedSheet))))
     = {| code := 200; body := JsonCheck true (Some "active") |}.
Proof.
  assert (healthy (store headedSheet)) as Hw by (split; reflexivity).
  split; [exact Hw |].
  refine (checkout_then_check_any_spelling (store headedSheet) dropdownFirstSession
            "pro" "  PRO " Hw _ _ _ _).
  - vm_compute. reflexivity.
  - vm_compute. discriminate.
  - left. discriminate.
  - vm_compute. reflexivity.
Defined.

(** ** Where the e-mail of a session comes from *)

Section Candidates.

Lemma candidate_Some (f : option Field.holder) (matchKey : bool) (v : string) :
  candidate f matchKey = Some v ->
  exists o raw, f = Some o /\ Field.value o = Some raw /\ v = JS.trim raw
                /\ v <> "" /\ matchKey = true.
Proof.
  unfold candidate. destruct f as [o |]; [| discriminate].
  destruct (Field.value o) as [raw |] eqn:Hraw; cbn [JS.truthy JS.orEmpty];
    [| discriminate].
  destruct (negb (raw =? "") && matchKey) eqn:Hguard; [| discriminate].
  apply andb_prop in Hguard as [_ ->].
  destruct (JS.trim raw) as [| c t] eqn:Htrim; cbn [String.length Nat.ltb Nat.leb];
    [discriminate |].
  intros [= <-]. exists o, raw. by split_and!.
Qed.

Lemma candidate_unmatched (f : option Field.holder) : candidate f false = None.
Proof.
  unfold candidate. destruct f as [o |]; [| reflexivity].
  by rewrite andb_false_r.
Qed.

Lemma keyedFields_Some (fieldKey : string) (fields : list Field.t) (v : string) :
  keyedFields fieldKey fields = Some v ->
  exists field o raw,
    field ∈ fields
    /\ (Field.text field = Some o \/ Field.dropdown field = Some o)
    /\ Field.value o = Some raw /\ v = JS.trim raw /\ v <> ""
    /\ (fieldKey = "" \/ JS.trimmedOrEmpty (Field.key field) = fieldKey).
Proof.
  induction fields as [| field rest IH]; [discriminate |].
  cbn [keyedFields].
  assert (forall f,
            candidate f ((fieldKey =? "")
                         || (JS.trimmedOrEmpty (Field.key field) =? fieldKey)) = Some v ->
            exists o raw, f = Some o /\ Field.value o = Some raw /\ v = JS.trim raw
                          /\ v <> ""
                          /\ (fieldKey = ""
                              \/ JS.trimmedOrEmpty (Field.key field) = fieldKey))
    as Hcand.
  { intros f (o & raw & -> & Hraw & -> & Hne & Hkey)%candidate_Some.
    exists o, raw. split_and!; try done.
    apply orb_prop in Hkey as [Hkey | Hkey]; apply String.eqb_eq in Hkey; auto. }
  destruct (candidate (Field.text field) _) as [v1 |] eqn:Htext.
  { intros [= ->]. destruct (Hcand _ Htext) as (o & raw & Ho & ? & ? & ? & ?).
    exists field, o, raw. split_and!; try done; [apply list_elem_of_here | by left]. }
  destruct (candidate (Field.dropdown field) _) as [v2 |] eqn:Hdrop.
  { intros [= ->]. destruct (Hcand _ Hdrop) as (o & raw & Ho & ? & ? & ? & ?).
    exists field, o, raw. split_and!; try done; [apply list_elem_of_here | by right]. }
  intros (field' & o & raw & Hin & Hrest)%IH.
  exists field', o, raw. split; [by apply list_elem_of_further | exact Hrest].
Qed.

Lemma firstTextField_Some (fields : list Field.t) (v : string) :
  firstTextField fields = Some v ->
  exists field o raw,
    field ∈ fields /\ Field.text field = Some o
    /\ Field.value o = Some raw /\ v = JS.trim raw /\ v <> "".
Proof.
  induction fields as [| field rest IH]; [discriminate |].
  cbn [firstTextField].
  destruct (candidate (Field.text field) true) as [v1 |] eqn:Htext.
  - intros [= ->].
    apply candidate_Some in Htext as (o & raw & Ho & ? & ? & ? & _).
    exists field, o, raw. split_and!; try done. apply list_elem_of_here.
  - intros (field' & o & raw & Hin & Hrest)%IH.
    exists field', o, raw. split; [by apply list_elem_of_further | exact Hrest].
Qed.

Lemma keyedFields_no_match (fieldKey : string) (fields : list Field.t) :
  fieldKey <> "" ->
  Forall (fun field => JS.trimmedOrEmpty (Field.key field) <> fieldKey) fields ->
  keyedFields fieldKey fields = None.
Proof.
  intros Hkey. induction 1 as [| field rest Hfield _ IH]; [reflexivity |].
  cbn [keyedFields]. rewrite (eqb_empty_false _ Hkey).
  apply String.eqb_neq in Hfield. rewrite Hfield. cbn [orb].
  by rewrite !candidate_unmatched.
Qed.

End Candidates.

(** X17: a value that [getGoogleEmailFromSession] takes from the custom
    fields is the trimmed, non-empty text or dropdown value of one of the
    fields, and when a field key is configured that field carries the key
    (compared after trimming the field's key). *)
Theorem custom_field_value_provenance (fieldKey : string)
    (customFields : option (list Field.t)) (v : string) :
  fromCustomFields fieldKey customFields = Some v ->
  v <> "" /\ JS.trim v = v
  /\ exists fields field o raw,
       customFields = Some fields /\ field ∈ fields
       /\ (Field.text field = Some o \/ Field.dropdown field = Some o)
       /\ Field.value o = Some raw /\ v = JS.trim raw
       /\ (fieldKey = "" \/ JS.trimmedOrEmpty (Field.key field) = fieldKey).
Proof.
  unfold fromCustomFields. destruct customFields as [fields |]; [| discriminate].
  destruct (0 <? length fields)%nat; [| discriminate].
  destruct (keyedFields fieldKey fields) as [v1 |] eqn:Hkeyed.
  - intros [= ->].
    apply keyedFields_Some in Hkeyed as (field & o & raw & Hin & Ho & Hraw & -> & Hne & Hk).
    split_and!; [exact Hne | apply trim_idempotent |].
    by exists fields, field, o, raw.
  - destruct (String.eqb_spec fieldKey "") as [-> | Hkey]; [| discriminate].
    intros (field & o & raw & Hin & Ho & Hraw & -> & Hne)%firstTextField_Some.
    split_and!; [exact Hne | apply trim_idempotent |].
    exists fields, field, o, raw. split_and!; auto.
Qed.

Lemma custom_field_value_provenance_witness :
  fromCustomFields "google_account" (Some [planField; paddedKeyField]) = Some "Me@Site.jp"
  /\ "Me@Site.jp" <> "" /\ JS.trim "Me@Site.jp" = "Me@Site.jp".
Proof.
  assert (fromCustomFields "google_account" (Some [planField; paddedKeyField])
          = Some "Me@Site.jp") as Hv by (vm_compute; reflexivity).
  destruct (custom_field_value_provenance _ _ _ Hv) as (Hne & Htrim & _).
  by split_and!.
Defined.

(** X18: with a field key configured, custom fields whose key (trimmed)
    differs from it are never used: if no field carries the key, the
    result is the fallback chain [customer_email ??
    customer_details?.email ?? customer_details?.customer_email ?? null],
    whatever the fields hold. *)
Theorem configured_key_ignores_other_fields (fieldKey : string) (session : Session.t) :
  fieldKey <> "" ->
  (forall fields,
     Session.custom_fields session = Some fields ->
     Forall (fun field => JS.trimmedOrEmpty (Field.key field) <> fieldKey) fields) ->
  getGoogleEmailFromSession fieldKey session = fallbackEmail session.
Proof.
  intros Hkey Hfields. unfold getGoogleEmailFromSession, fromCustomFields.
  destruct (Session.custom_fields session) as [fields |]; [| reflexivity].
  rewrite (keyedFields_no_match fieldKey fields Hkey (Hfields fields eq_refl)).
  rewrite (eqb_empty_false _ Hkey). by destruct (0 <? length fields)%nat.
Qed.

Lemma configured_key_ignores_other_fields_witness :
  "account" <> ""
  /\ getGoogleEmailFromSession "account" dropdownFirstSession = Some "payer@example.com".
Proof.
  assert ("account" <> "") as Hkey by discriminate.
  split; [exact Hkey |].
  refine (configured_key_ignores_other_fields "account" dropdownFirstSession Hkey _).
  intros fields [= <-]. repeat constructor; vm_compute; discriminate.
Defined.

(** X19: the fallback chain stops at the first field that is not null.
    When the custom fields yield nothing and [customer_email] is present,
    it is the result even if it is empty or blank, and then the event is
    ignored without a look at [customer_details]. *)
Theorem fallback_stops_at_customer_email (w : World) (session : Session.t) (e : string) :
  fromCustomFields (googleAccountFieldKey (env w)) (Session.custom_fields session) = None ->
  Session.customer_email session = Some e ->
  getGoogleEmailFromSession (googleAccountFieldKey (env w)) session = Some e
  /\ (JS.toLowerCase (JS.trim e) = "" ->
      onEvent (CheckoutSessionCompleted (Some session)) w
      = ({| code := 200; body := JsonReceived |}, w)).
Proof.
  intros Hnone Hemail.
  assert (getGoogleEmailFromSession (googleAccountFieldKey (env w)) session = Some e)
    as Hget.
  { unfold getGoogleEmailFromSession, fallbackEmail, nullish. by rewrite Hnone, Hemail. }
  split; [exact Hget |].
  intros Hblank. apply onEvent_checkout_blank. by rewrite Hget.
Qed.

Lemma fallback_stops_at_customer_email_witness :
  getGoogleEmailFromSession (googleAccountFieldKey (env (store headedSheet)))
    emptyEmailSession = Some ""
  /\ onEvent (CheckoutSessionCompleted (Some emptyEmailSession)) (store headedSheet)
     = ({| code := 200; body := JsonReceived |}, store headedSheet).
Proof.
  destruct (fallback_stops_at_customer_email (store headedSheet) emptyEmailSession ""
              eq_refl eq_refl) as [Hget Hignored].
  split; [exact Hget | apply Hignored; reflexivity].
Defined.

(** ** The webhook route *)

Section Route.

Lemma onEvent_code (event : Event) (w : World) :
  code (fst (onEvent event w)) = 200 \/ code (fst (onEvent event w)) = 500.
Proof.
  destruct event as [[session |] | [subscription |] | [subscription |] | | type];
    cbn [onEvent]; try (by left).
  - destruct (negb (JS.truthy _)); [by left |].
    destruct (String.length _ =? 0)%nat; [by left |].
    unfold tryCatch. destruct (upsertPaidUser _ _ _ w) as [[a | e] w']; auto.
  - destruct (negb (JS.truthy _)); [by left |].
    unfold tryCatch.
    destruct (updateStatusBySubscriptionId _ _ w) as [[a | e] w']; auto.
  - destruct (negb (JS.truthy _)); [by left |].
    unfold tryCatch.
    destruct (updateStatusBySubscriptionId _ _ w) as [[a | e] w']; auto.
Qed.

End Route.

(** X20: [POST /webhook] answers 400 exactly when the body is empty, the
    signature header is missing, the secret is not set or the signature
    check throws; a 400 leaves the world untouched, and a request that
    passes is handled as the verified event, whatever the verifier. *)
Theorem webhook_rejects_before_store
    (constructEvent : string -> string -> string -> outcome Event)
    (secret : string) (req : Webhook.Request) (w : World) :
  let verdict_ := constructEvent (JS.orEmpty (Webhook.body req))
                    (JS.orEmpty (Webhook.signature req)) secret in
  (code (fst (postWebhook constructEvent secret req w)) = 400
   <-> JS.truthy (Webhook.body req) = false
       \/ JS.truthy (Webhook.signature req) = false
       \/ secret = ""
       \/ exists message, verdict_ = Throws message)
  /\ (code (fst (postWebhook constructEvent secret req w)) = 400 ->
      snd (postWebhook constructEvent secret req w) = w)
  /\ (forall event,
        JS.truthy (Webhook.body req) = true ->
        JS.truthy (Webhook.signature req) = true ->
        secret <> "" ->
        verdict_ = Returns event ->
        postWebhook constructEvent secret req w = onEvent event w).
Proof.
  cbn zeta. unfold postWebhook.
  destruct (JS.truthy (Webhook.body req)); cbn [negb];
    [| split_and!; [split; auto | done | done]].
  destruct (JS.truthy (Webhook.signature req)); cbn [negb orb];
    [| split_and!; [split; auto | done | done]].
  destruct (String.eqb_spec secret "") as [-> | Hsecret];
    [split_and!; [split; auto | done | done] |].
  destruct (constructEvent _ _ secret) as [event | message] eqn:Hverify.
  - split_and!.
    + split.
      * intros Hcode. destruct (onEvent_code event w) as [H | H];
          rewrite H in Hcode; discriminate.
      * intros [? | [? | [? | [m ?]]]]; done.
    + intros Hcode. destruct (onEvent_code event w) as [H | H];
        rewrite H in Hcode; discriminate.
    + by intros event' _ _ _ [= <-].
  - split_and!; [split; eauto 6 | done | done].
Qed.

Lemma webhook_rejects_before_store_witness :
  fst (postWebhook sampleVerifier "whsec_1" forgedRequest (store headedSheet))
  = {| code := 400;
       body := Text "Webhook Error: No signatures found matching the expected signature for payload" |}
  /\ snd (postWebhook sampleVerifier "whsec_1" forgedRequest (store headedSheet))
     = store headedSheet.
Proof.
  assert (code (fst (postWebhook sampleVerifier "whsec_1" forgedRequest
                       (store headedSheet))) = 400) as Hcode by reflexivity.
  split; [reflexivity |].
  exact (proj1 (proj2 (webhook_rejects_before_store sampleVerifier "whsec_1"
                         forgedRequest (store headedSheet))) Hcode).
Defined.
